(** * mira_py_devkit.cloud_storager.aws_s3

    A shallow embedding of the two storage clients of [aws_s3.py]
    ([AmazonS3] and its subclass [CloudflareR2]) and the verification of
    their documented contract.

    The module is a thin layer over two outside libraries: [boto3] (the
    storage SDK) and [requests] (the HTTP client).  Neither is part of the
    verified code; both are taken as an interface ([externals]) whose
    answers may depend on everything that happened before.  Every call that
    leaves the module is recorded in a trace, so that statements such as
    "the put-object call is never attempted" are statements about that
    trace. *)

From Stdlib Require Import String Ascii List ZArith Bool Lia.
From Stdlib Require Import Strings.Byte.
From stdpp Require Import base option list strings gmap.

Open Scope string_scope.

(** ** Values *)

(** The values the methods are called with: [str] objects, and [None] (the
    default of [endpoint_url]). *)
Inductive pyval :=
| VNone
| VStr (s : string).

(** [bool(v)], as used by [if v] and [v and ...]. *)
Definition truthy (v : pyval) : bool :=
  match v with
  | VNone => false
  | VStr EmptyString => false
  | VStr (String _ _) => true
  end.

(** [str(v)], which is what a replacement field [{v}] of an f-string
    inserts. *)
Definition py_str (v : pyval) : string :=
  match v with
  | VNone => "None"
  | VStr s => s
  end.

(** [a == b]. *)
Definition py_eq (a b : pyval) : bool :=
  match a, b with
  | VNone, VNone => true
  | VStr s, VStr t => String.eqb s t
  | _, _ => false
  end.

(** [v in l] for a list [l]. *)
Definition py_in (v : pyval) (l : list pyval) : bool :=
  existsb (py_eq v) l.

(** [io.BytesIO(initial)]: a buffer and a stream position, which starts at
    the beginning. *)
Record BytesIO := { buffer : list byte; position : nat }.

Definition BytesIO_new (initial : list byte) : BytesIO :=
  {| buffer := initial; position := 0 |}.

(** [b.read()]: everything from the position to the end. *)
Definition BytesIO_read (b : BytesIO) : list byte :=
  drop (position b) (buffer b).

(** ** Exceptions *)

(** Why binding the arguments of a call to the parameters failed. *)
Inductive bind_error :=
| UnexpectedKeyword (name : string)
| MultipleValues (name : string)
| TooManyPositional (accepted given : nat)
| MissingRequired (names : list string).

Inductive exn :=
| TypeError (why : bind_error)
| ValueError (msg : string)
| AttributeError (name : string)
| Raised (cls msg : string).
(** [Raised] stands for the exception objects made by the outside
    libraries (botocore's [ClientError], boto3's [S3UploadFailedError],
    requests' [HTTPError] and [ConnectionError], ...). *)

(** ** The outside world *)

(** The object [boto3.client] returns. *)
Inductive raw_client := RawClient (id : N).

(** What [requests.get] returns, as far as this module reads it. *)
Record response := { status_code : Z; content : list byte }.

(** One entry per call that leaves the module, with the arguments as
    passed. *)
Inductive event :=
| Boto3Client (service_name : string)
    (aws_access_key_id endpoint_url aws_secret_access_key : pyval)
| UploadFile (client : raw_client) (Filename Bucket Key : pyval)
    (ExtraArgs : list (string * pyval))
| RequestsGet (url : pyval)
| PutObject (client : raw_client) (Bucket Key : pyval) (Body : BytesIO)
    (ACL : pyval).

(** The outside libraries.  Each function gets the trace so far and the
    arguments of the call; it answers with the returned value or the
    exception raised ([None] in an [option exn] is a normal return). *)
Record externals := {
  boto3_client :
    list event -> string -> pyval -> pyval -> pyval -> exn + raw_client;
  client_upload_file :
    list event -> raw_client -> pyval -> pyval -> pyval ->
    list (string * pyval) -> option exn;
  requests_get : list event -> pyval -> exn + response;
  raise_for_status : response -> option exn;
  client_put_object :
    list event -> raw_client -> pyval -> pyval -> BytesIO -> pyval ->
    option exn
}.

(** ** Objects and the state *)

Inductive class := C_AmazonS3 | C_CloudflareR2.

(** What an instance attribute holds. *)
Inductive attr :=
| Val (v : pyval)
| Client (c : raw_client).

(** An instance: its class and its [__dict__]. *)
Record object := { ob_class : class; ob_dict : gmap string attr }.

(** The state a method runs in: the instance it is called on, and the
    trace of outside calls. *)
Record state := { self : object; trace : list event }.

(** ** The monad of method bodies: reader of the outside libraries, state,
    exceptions *)

Definition M (A : Type) : Type := externals -> state -> (exn + A) * state.

Global Instance M_ret : MRet M := λ A (a : A) _ s, (inr a, s).

Global Instance M_bind : MBind M := λ A B (f : A -> M B) (m : M A) X s,
  match m X s with
  | (inl e, s') => (inl e, s')
  | (inr a, s') => f a X s'
  end.

Definition raise {A : Type} (e : exn) : M A := λ _ s, (inl e, s).

(** [self.name] *)
Definition getattr (name : string) : M attr := λ _ s,
  match ob_dict (self s) !! name with
  | Some a => (inr a, s)
  | None => (inl (AttributeError name), s)
  end.

(** [self.name = a] *)
Definition setattr (name : string) (a : attr) : M unit := λ _ s,
  (inr tt,
   {| self := {| ob_class := ob_class (self s);
                 ob_dict := <[name := a]> (ob_dict (self s)) |};
      trace := trace s |}).

(** A call into an outside library: the library answers from the trace so
    far, and the call is appended to the trace. *)
Definition external {A : Type} (ev : event)
    (answer : externals -> list event -> exn + A) : M A := λ X s,
  (answer X (trace s), {| self := self s; trace := trace s ++ [ev] |}).

Definition returned (o : option exn) : exn + unit :=
  match o with
  | Some e => inl e
  | None => inr tt
  end.

(** [resp.raise_for_status()]: no traffic, the response decides. *)
Definition response_raise_for_status (resp : response) : M unit := λ X s,
  (returned (raise_for_status X resp), s).

(** [self.s3_raw_client], about to be used as a client: an attribute that
    is not a client has no [upload_file] or [put_object]. *)
Definition get_s3_raw_client (method : string) : M raw_client :=
  a ← getattr "s3_raw_client";
  match a with
  | Client c => mret c
  | Val _ => raise (AttributeError method)
  end.

(** ** Calls: binding arguments to parameters *)

(** A parameter of a [def]: its name and, when it has one, its default. *)
Record param := { p_name : string; p_default : option pyval }.

Definition required (name : string) : param :=
  {| p_name := name; p_default := None |}.

Definition optional (name : string) (default : pyval) : param :=
  {| p_name := name; p_default := Some default |}.

(** The positional arguments fill the parameters from the left. *)
Fixpoint fill_positional (sig : list param) (args : list pyval)
    : list (param * option pyval) :=
  match sig with
  | [] => []
  | p :: sig' =>
      match args with
      | [] => (p, None) :: fill_positional sig' []
      | a :: args' => (p, Some a) :: fill_positional sig' args'
      end
  end.

(** A keyword argument goes to the parameter of that name, which must exist
    and must not have a value yet. *)
Fixpoint set_keyword (k : string) (v : pyval)
    (slots : list (param * option pyval))
    : bind_error + list (param * option pyval) :=
  match slots with
  | [] => inl (UnexpectedKeyword k)
  | (p, o) :: rest =>
      if String.eqb (p_name p) k then
        match o with
        | Some _ => inl (MultipleValues k)
        | None => inr ((p, Some v) :: rest)
        end
      else
        match set_keyword k v rest with
        | inl e => inl e
        | inr rest' => inr ((p, o) :: rest')
        end
  end.

Fixpoint fill_keywords (kwargs : list (string * pyval))
    (slots : list (param * option pyval))
    : bind_error + list (param * option pyval) :=
  match kwargs with
  | [] => inr slots
  | (k, v) :: kwargs' =>
      match set_keyword k v slots with
      | inl e => inl e
      | inr slots' => fill_keywords kwargs' slots'
      end
  end.

(** The parameters left without a value and without a default. *)
Fixpoint missing (slots : list (param * option pyval)) : list string :=
  match slots with
  | [] => []
  | (p, None) :: rest =>
      match p_default p with
      | None => p_name p :: missing rest
      | Some _ => missing rest
      end
  | (_, Some _) :: rest => missing rest
  end.

(** The value of every parameter: the argument, else the default. *)
Fixpoint fill_defaults (slots : list (param * option pyval)) : list pyval :=
  match slots with
  | [] => []
  | (p, o) :: rest =>
      match o, p_default p with
      | Some v, _ => v
      | None, Some d => d
      | None, None => VNone
      end :: fill_defaults rest
  end.

(** Binding, in the order the interpreter checks: keywords, then the number
    of positional arguments, then the parameters still missing. *)
Definition bind_args (sig : list param) (args : list pyval)
    (kwargs : list (string * pyval)) : bind_error + list pyval :=
  match fill_keywords kwargs (fill_positional sig args) with
  | inl e => inl e
  | inr slots =>
      if Nat.ltb (length sig) (length args)
      then inl (TooManyPositional (length sig) (length args))
      else
        match missing slots with
        | [] => inr (fill_defaults slots)
        | names => inl (MissingRequired names)
        end
  end.

(** A method as the rest of the program sees it: called with positional and
    keyword arguments on the instance held by the state. *)
Definition method : Type := list pyval -> list (string * pyval) -> M pyval.

(** A [def] with one, three or five parameters after [self].  [bind_args]
    yields one value per parameter ([bind_args_length] below), so the last
    branch of each is never taken. *)
Definition def1 (sig : list param) (body : pyval -> M pyval) : method :=
  λ args kwargs,
  match bind_args sig args kwargs with
  | inl e => raise (TypeError e)
  | inr [a] => body a
  | inr vals => raise (TypeError (TooManyPositional 1 (length vals)))
  end.

Definition def3 (sig : list param) (body : pyval -> pyval -> pyval -> M pyval)
    : method := λ args kwargs,
  match bind_args sig args kwargs with
  | inl e => raise (TypeError e)
  | inr [a; b; c] => body a b c
  | inr vals => raise (TypeError (TooManyPositional 3 (length vals)))
  end.

Definition def5 (sig : list param)
    (body : pyval -> pyval -> pyval -> pyval -> pyval -> M pyval)
    : method := λ args kwargs,
  match bind_args sig args kwargs with
  | inl e => raise (TypeError e)
  | inr [a; b; c; d; e] => body a b c d e
  | inr vals => raise (TypeError (TooManyPositional 5 (length vals)))
  end.

(** ** class AmazonS3 *)

Module AmazonS3.

Definition VALID_ACL : list pyval :=
  [ VStr "private";
    VStr "public-read";
    VStr "public-read-write";
    VStr "authenticated-read";
    VStr "aws-exec-read";
    VStr "bucket-owner-read";
    VStr "bucket-owner-full-control";
    VStr "log-delivery-write" ].

Definition __init___sig : list param :=
  [ required "aws_access_key_id";
    required "aws_secret_access_key";
    optional "endpoint_url" VNone ].

Definition __init___body
    (aws_access_key_id aws_secret_access_key endpoint_url : pyval)
    : M pyval :=
  setattr "aws_access_key_id" (Val aws_access_key_id);;
  setattr "aws_secret_access_key" (Val aws_secret_access_key);;
  c ← external
        (Boto3Client "s3" aws_access_key_id endpoint_url
           aws_secret_access_key)
        (λ X t, boto3_client X t "s3" aws_access_key_id endpoint_url
                  aws_secret_access_key);
  setattr "s3_raw_client" (Client c);;
  mret VNone.

Definition __init__ : method := def3 __init___sig __init___body.

Definition _check_acl_sig : list param := [ required "acl" ].

(** [self.VALID_ACL] is read as the class attribute: nothing in the module
    gives an instance an attribute of that name, so the lookup through the
    instance ends at the class. *)
Definition _check_acl_body (acl : pyval) : M pyval :=
  if truthy acl && negb (py_in acl VALID_ACL)
  then raise (ValueError
         ("Invalid ACL: " +:+ py_str acl +:+
          ". Please check the https://docs.aws.amazon.com/AmazonS3/latest/userguide/acl-overview.html#canned-acl for valid ACLs."))
  else mret VNone.

Definition _check_acl : method := def1 _check_acl_sig _check_acl_body.

(** The expression both uploads end with. *)
Definition public_url (bucket_name object_name bucket_domain : pyval)
    : pyval :=
  if truthy bucket_domain
  then VStr ("https://" +:+ py_str bucket_domain +:+ "/" +:+
             py_str object_name)
  else VStr ("https://" +:+ py_str bucket_name +:+ ".s3.amazonaws.com/" +:+
             py_str object_name).

Definition upload_from_local_file_sig : list param :=
  [ required "file_path";
    required "bucket_name";
    required "object_name";
    optional "acl" (VStr "public-read");
    optional "bucket_domain" (VStr "") ].

Definition upload_from_local_file_body
    (file_path bucket_name object_name acl bucket_domain : pyval)
    : M pyval :=
  c ← get_s3_raw_client "upload_file";
  external
    (UploadFile c file_path bucket_name object_name [("ACL", acl)])
    (λ X t, returned (client_upload_file X t c file_path bucket_name
                        object_name [("ACL", acl)]));;
  mret (public_url bucket_name object_name bucket_domain).

Definition upload_from_local_file : method :=
  def5 upload_from_local_file_sig upload_from_local_file_body.

Definition upload_from_url_sig : list param :=
  [ required "url";
    required "bucket_name";
    required "object_name";
    optional "acl" (VStr "public-read");
    optional "bucket_domain" (VStr "") ].

Definition upload_from_url_body
    (url bucket_name object_name acl bucket_domain : pyval) : M pyval :=
  resp ← external (RequestsGet url) (λ X t, requests_get X t url);
  response_raise_for_status resp;;
  c ← get_s3_raw_client "put_object";
  external
    (PutObject c bucket_name object_name (BytesIO_new (content resp)) acl)
    (λ X t, returned (client_put_object X t c bucket_name object_name
                        (BytesIO_new (content resp)) acl));;
  mret (public_url bucket_name object_name bucket_domain).

Definition upload_from_url : method :=
  def5 upload_from_url_sig upload_from_url_body.

End AmazonS3.

(** ** class CloudflareR2(AmazonS3) *)

Module CloudflareR2.

Definition __init___sig : list param :=
  [ required "aws_access_key_id";
    required "aws_secret_access_key";
    required "endpoint_url" ].

(** [super().__init__(aws_access_key_id, aws_secret_access_key,
    endpoint_url)]: three positional arguments. *)
Definition __init___body
    (aws_access_key_id aws_secret_access_key endpoint_url : pyval)
    : M pyval :=
  AmazonS3.__init__
    [aws_access_key_id; aws_secret_access_key; endpoint_url] [];;
  mret VNone.

Definition __init__ : method := def3 __init___sig __init___body.

End CloudflareR2.

(** ** Method lookup and instantiation *)

(** The methods a class body defines. *)
Definition own_methods (c : class) : list (string * method) :=
  match c with
  | C_AmazonS3 =>
      [ ("__init__", AmazonS3.__init__);
        ("_check_acl", AmazonS3._check_acl);
        ("upload_from_local_file", AmazonS3.upload_from_local_file);
        ("upload_from_url", AmazonS3.upload_from_url) ]
  | C_CloudflareR2 =>
      [ ("__init__", CloudflareR2.__init__) ]
  end.

(** The method resolution order, over the classes of this module.  [object]
    is left out: the methods every instance inherits from it
    ([__setattr__], [__delattr__], ...) are not modelled, so [resolve] and
    [invoke] speak for the four names the module defines and for no
    other. *)
Definition mro (c : class) : list class :=
  match c with
  | C_AmazonS3 => [C_AmazonS3]
  | C_CloudflareR2 => [C_CloudflareR2; C_AmazonS3]
  end.

Fixpoint assoc {A : Type} (name : string) (l : list (string * A))
    : option A :=
  match l with
  | [] => None
  | (n, a) :: l' => if String.eqb n name then Some a else assoc name l'
  end.

Fixpoint resolve_in (cs : list class) (name : string) : option method :=
  match cs with
  | [] => None
  | c :: cs' =>
      match assoc name (own_methods c) with
      | Some m => Some m
      | None => resolve_in cs' name
      end
  end.

Definition resolve (c : class) (name : string) : option method :=
  resolve_in (mro c) name.

(** [self.name(...)] *)
Definition invoke (name : string) : method := λ args kwargs X s,
  match resolve (ob_class (self s)) name with
  | Some m => m args kwargs X s
  | None => (inl (AttributeError name), s)
  end.

(** [cls(...)]: a new instance with an empty [__dict__], on
    which [__init__] runs; the instance is the value of the call when
    [__init__] returns. *)
Definition construct (cls : class) (args : list pyval)
    (kwargs : list (string * pyval)) (X : externals) (t : list event)
    : (exn + object) * list event :=
  let s0 := {| self := {| ob_class := cls; ob_dict := ∅ |}; trace := t |} in
  match invoke "__init__" args kwargs X s0 with
  | (inl e, s) => (inl e, trace s)
  | (inr _, s) => (inr (self s), trace s)
  end.

(** ** A test double for the outside libraries *)

Module Mock.

(** [requests]' rule: a status from 400 to 599 is an error. *)
Definition http_error (r : response) : option exn :=
  if ((400 <=? status_code r) && (status_code r <? 600))%Z
  then Some (Raised "requests.exceptions.HTTPError" "Error")
  else None.

(** Web pages by URL; anything else cannot be reached. *)
Definition pages (url : pyval) : exn + response :=
  match url with
  | VStr "https://example.com/cat.png" =>
      inr {| status_code := 200; content := [x89; x50; x4e; x47; x00; xff] |}
  | VStr "https://example.com/gone" =>
      inr {| status_code := 404; content := [x6e; x6f] |}
  | VStr "https://example.com/cached" =>
      inr {| status_code := 304; content := [] |}
  | _ => inl (Raised "requests.exceptions.ConnectionError" "unreachable")
  end.

(** A store that accepts every call, except uploads to the bucket
    ["forbidden"]; clients are numbered by the length of the trace. *)
Definition refuse (bucket : pyval) : option exn :=
  match bucket with
  | VStr "forbidden" =>
      Some (Raised "botocore.exceptions.ClientError" "AccessDenied")
  | _ => None
  end.

Definition world : externals :=
  {| boto3_client := λ t _ _ _ _, inr (RawClient (N.of_nat (length t)));
     client_upload_file := λ _ _ _ bucket _ _, refuse bucket;
     requests_get := λ _ url, pages url;
     raise_for_status := http_error;
     client_put_object := λ _ _ bucket _ _ _, refuse bucket |}.

(** The state after [AmazonS3("AKIA", "secret")], run on an empty
    trace. *)
Definition fresh : state :=
  let run := construct C_AmazonS3 [VStr "AKIA"; VStr "secret"] [] world [] in
  {| self := match run.1 with
             | inr o => o
             | inl _ => {| ob_class := C_AmazonS3; ob_dict := ∅ |}
             end;
     trace := run.2 |}.

End Mock.

(** * What is claimed, in terms of runs *)

(** ** What a run did *)

Definition returns {A : Type} (run : (exn + A) * state) (a : A) : Prop :=
  run.1 = inr a.

Definition raises {A : Type} (run : (exn + A) * state) (e : exn) : Prop :=
  run.1 = inl e.

(** The state with further outside calls on the trace. *)
Definition logged (s : state) (evs : list event) : state :=
  {| self := self s; trace := trace s ++ evs |}.

(** The instance has its client: what [__init__] establishes. *)
Definition has_client (s : state) (c : raw_client) : Prop :=
  ob_dict (self s) !! "s3_raw_client" = Some (Client c).

(** The events a run added to the trace it started from. *)
Definition new_events {A : Type} (s : state) (run : (exn + A) * state)
    : list event :=
  drop (length (trace s)) (trace run.2).

(** ** The states a program can be in *)

(** An instance comes out of its constructor; after that, methods are called
    on it, and other code may use the outside libraries in between. *)
Inductive reachable (X : externals) : state -> Prop :=
| reach_construct cls args kwargs t o t' :
    construct cls args kwargs X t = (inr o, t') ->
    reachable X {| self := o; trace := t' |}
| reach_invoke s name args kwargs :
    reachable X s ->
    reachable X (invoke name args kwargs X s).2
| reach_elsewhere s ev :
    reachable X s ->
    reachable X (logged s [ev]).

(** A call on the instance: the method name and the arguments. *)
Definition call : Type := string * list pyval * list (string * pyval).

(** The state after a sequence of calls, whether they returned or raised. *)
Fixpoint after_calls (calls : list call) (X : externals) (s : state)
    : state :=
  match calls with
  | [] => s
  | (name, args, kwargs) :: rest =>
      after_calls rest X (invoke name args kwargs X s).2
  end.

(** The three operations of a client. *)
Definition operations : list string :=
  ["upload_from_local_file"; "upload_from_url"; "_check_acl"].

(** ** Construction *)

(** The signature of the [__init__] a class resolves to. *)
Definition init_sig (cls : class) : list param :=
  match cls with
  | C_AmazonS3 => AmazonS3.__init___sig
  | C_CloudflareR2 => CloudflareR2.__init___sig
  end.

(** The instance a successful construction yields. *)
Definition instance (cls : class) (aws_access_key_id
    aws_secret_access_key : pyval) (c : raw_client) : object :=
  {| ob_class := cls;
     ob_dict :=
       <["s3_raw_client" := Client c]>
         (<["aws_secret_access_key" := Val aws_secret_access_key]>
            (<["aws_access_key_id" := Val aws_access_key_id]> ∅)) |}.

(** ** Binding, compared across signatures and calls *)

(** The same parameter, without its default. *)
Definition undefaulted (p : param) : param := required (p_name p).

Definition on_param (f : param -> param) (slot : param * option pyval)
    : param * option pyval :=
  (f slot.1, slot.2).

(** The slot of the parameter called [name]. *)
Fixpoint find_slot (name : string) (slots : list (param * option pyval))
    : option (param * option pyval) :=
  match slots with
  | [] => None
  | (p, o) :: rest =>
      if String.eqb (p_name p) name then Some (p, o) else find_slot name rest
  end.

(** ** The class of an instance *)

(** The same instance or state, seen as one of another class. *)
Definition with_class (cls : class) (o : object) : object :=
  {| ob_class := cls; ob_dict := ob_dict o |}.

Definition set_class (cls : class) (s : state) : state :=
  {| self := with_class cls (self s); trace := trace s |}.

(** A computation that does not look at the class of [self]. *)
Definition class_blind {A : Type} (m : M A) : Prop :=
  forall X cls s, m X (set_class cls s) = ((m X s).1, set_class cls (m X s).2).

(** ** Counting arguments *)

(** How many slots have a value. *)
Fixpoint filled (slots : list (param * option pyval)) : nat :=
  match slots with
  | [] => 0
  | (_, Some _) :: rest => S (filled rest)
  | (_, None) :: rest => filled rest
  end.

(** How many parameters have no default. *)
Fixpoint required_count (sig : list param) : nat :=
  match sig with
  | [] => 0
  | p :: sig' =>
      match p_default p with
      | None => S (required_count sig')
      | Some _ => required_count sig'
      end
  end.

(** ** The client an outside call goes through *)

(** The call is a transfer through the client [c], or a plain GET; it does
    not make a client. *)
Definition uses_client (c : raw_client) (ev : event) : Prop :=
  match ev with
  | UploadFile c' _ _ _ _ => c' = c
  | PutObject c' _ _ _ _ => c' = c
  | RequestsGet _ => True
  | Boto3Client _ _ _ _ => False
  end.

(** ** A second test double: an endpoint the SDK rejects *)

Module Strict.

(** As [Mock.world], but [boto3.client] refuses the endpoint
    ["not a url"]. *)
Definition world : externals :=
  {| boto3_client := λ t _ _ endpoint _,
       match endpoint with
       | VStr "not a url" => inl (ValueError "Invalid endpoint: not a url")
       | _ => inr (RawClient (N.of_nat (length t)))
       end;
     client_upload_file := client_upload_file Mock.world;
     requests_get := requests_get Mock.world;
     raise_for_status := raise_for_status Mock.world;
     client_put_object := client_put_object Mock.world |}.

(** The state after [AmazonS3("AKIA", "secret")], run on an empty
    trace. *)
Definition fresh : state :=
  let run := construct C_AmazonS3 [VStr "AKIA"; VStr "secret"] [] world [] in
  {| self := match run.1 with
             | inr o => o
             | inl _ => {| ob_class := C_AmazonS3; ob_dict := ∅ |}
             end;
     trace := run.2 |}.

End Strict.

(** ** The status rule of the HTTP library *)

(** What [Response.raise_for_status] of [requests] does (the library is not
    part of this repository): it raises for a status from 400 to 599, and
    for no other status. *)
Definition requests_status_rule (X : externals) : Prop :=
  forall resp,
    is_Some (raise_for_status X resp) <->
    (400 <= status_code resp < 600)%Z.

(** ** Instances used through the module *)

(** The methods the two classes define. *)
Definition defined_methods : list string :=
  ["__init__"; "_check_acl"; "upload_from_local_file"; "upload_from_url"].

(** An instance that came out of a constructor and on which, since then,
    only methods the module defines were called; other code may have used
    the outside libraries in between. *)
Inductive used_as_defined (X : externals) : state -> Prop :=
| used_construct cls args kwargs t o t' :
    construct cls args kwargs X t = (inr o, t') ->
    used_as_defined X {| self := o; trace := t' |}
| used_invoke s name args kwargs :
    used_as_defined X s ->
    name ∈ defined_methods ->
    used_as_defined X (invoke name args kwargs X s).2
| used_elsewhere s ev :
    used_as_defined X s ->
    used_as_defined X (logged s [ev]).

(** * Verification *)

(** ** Binding *)

Lemma fill_positional_length sig args :
  length (fill_positional sig args) = length sig.
Proof.
  revert args. induction sig as [|p sig IH]; intros args; [done|].
  destruct args; simpl; by rewrite IH.
Qed.

Lemma set_keyword_length k v slots slots' :
  set_keyword k v slots = inr slots' -> length slots' = length slots.
Proof.
  revert slots'. induction slots as [|[p o] rest IH]; intros slots'; simpl.
  - discriminate.
  - destruct (String.eqb (p_name p) k).
    + destruct o; [discriminate|]. intros [= <-]. done.
    + destruct (set_keyword k v rest) as [e|rest'] eqn:E; [discriminate|].
      intros [= <-]. simpl. f_equal. by apply IH.
Qed.

Lemma fill_keywords_length kwargs slots slots' :
  fill_keywords kwargs slots = inr slots' -> length slots' = length slots.
Proof.
  revert slots. induction kwargs as [|[k v] kwargs IH]; intros slots; simpl.
  - by intros [= <-].
  - destruct (set_keyword k v slots) as [e|s1] eqn:E; [discriminate|].
    intros H. rewrite (IH _ H). by eapply set_keyword_length.
Qed.

Lemma fill_defaults_length slots :
  length (fill_defaults slots) = length slots.
Proof. induction slots as [|[p o] rest IH]; simpl; [done|]. by rewrite IH. Qed.

(** Binding yields one value per parameter. *)
Lemma bind_args_length sig args kwargs vals :
  bind_args sig args kwargs = inr vals -> length vals = length sig.
Proof.
  unfold bind_args.
  destruct (fill_keywords kwargs (fill_positional sig args)) as [e|slots] eqn:E;
    [discriminate|].
  destruct (Nat.ltb _ _); [discriminate|].
  destruct (missing slots); [|discriminate].
  intros [= <-]. rewrite fill_defaults_length.
  rewrite (fill_keywords_length _ _ _ E). apply fill_positional_length.
Qed.

(** A call whose arguments bind runs the body on the bound values. *)
Lemma def5_bound sig body args kwargs a b c d e :
  bind_args sig args kwargs = inr [a; b; c; d; e] ->
  def5 sig body args kwargs = body a b c d e.
Proof. intros H. unfold def5. by rewrite H. Qed.

Lemma def3_bound sig body args kwargs a b c :
  bind_args sig args kwargs = inr [a; b; c] ->
  def3 sig body args kwargs = body a b c.
Proof. intros H. unfold def3. by rewrite H. Qed.

Lemma def1_bound sig body args kwargs a :
  bind_args sig args kwargs = inr [a] ->
  def1 sig body args kwargs = body a.
Proof. intros H. unfold def1. by rewrite H. Qed.

(** ** The bodies, run *)

Section Runs.

Variable X : externals.

Lemma upload_from_local_file_run s file_path bucket_name object_name acl
    bucket_domain :
  AmazonS3.upload_from_local_file_body file_path bucket_name object_name
    acl bucket_domain X s =
  match ob_dict (self s) !! "s3_raw_client" with
  | None => (inl (AttributeError "s3_raw_client"), s)
  | Some (Val _) => (inl (AttributeError "upload_file"), s)
  | Some (Client c) =>
      (match client_upload_file X (trace s) c file_path bucket_name
               object_name [("ACL", acl)] with
       | Some e => inl e
       | None =>
           inr (AmazonS3.public_url bucket_name object_name bucket_domain)
       end,
       logged s
         [UploadFile c file_path bucket_name object_name [("ACL", acl)]])
  end.
Proof.
  unfold AmazonS3.upload_from_local_file_body, get_s3_raw_client, getattr,
    external, logged, mbind, M_bind, mret, M_ret, raise; simpl.
  destruct (ob_dict (self s) !! "s3_raw_client") as [[v|c]|]; try done.
  simpl. by destruct (client_upload_file _ _ _ _ _ _ _).
Qed.

Lemma upload_from_url_run s url bucket_name object_name acl bucket_domain :
  AmazonS3.upload_from_url_body url bucket_name object_name acl
    bucket_domain X s =
  let s1 := logged s [RequestsGet url] in
  match requests_get X (trace s) url with
  | inl e => (inl e, s1)
  | inr resp =>
      match raise_for_status X resp with
      | Some e => (inl e, s1)
      | None =>
          match ob_dict (self s) !! "s3_raw_client" with
          | None => (inl (AttributeError "s3_raw_client"), s1)
          | Some (Val _) => (inl (AttributeError "put_object"), s1)
          | Some (Client c) =>
              (match client_put_object X (trace s1) c bucket_name
                       object_name (BytesIO_new (content resp)) acl with
               | Some e => inl e
               | None =>
                   inr (AmazonS3.public_url bucket_name object_name
                          bucket_domain)
               end,
               logged s
                 [RequestsGet url;
                  PutObject c bucket_name object_name
                    (BytesIO_new (content resp)) acl])
          end
      end
  end.
Proof.
  unfold AmazonS3.upload_from_url_body, get_s3_raw_client, getattr,
    response_raise_for_status, external, logged, mbind, M_bind, mret,
    M_ret, raise; simpl.
  destruct (requests_get X (trace s) url) as [e|resp]; [done|].
  destruct (raise_for_status X resp) as [e|]; [done|]. simpl.
  destruct (ob_dict (self s) !! "s3_raw_client") as [[v|c]|]; try done.
  simpl. rewrite <- app_assoc. simpl.
  by destruct (client_put_object _ _ _ _ _ _ _).
Qed.

Lemma check_acl_run s acl :
  AmazonS3._check_acl_body acl X s =
  (if truthy acl && negb (py_in acl AmazonS3.VALID_ACL)
   then inl (ValueError
          ("Invalid ACL: " +:+ py_str acl +:+
           ". Please check the https://docs.aws.amazon.com/AmazonS3/latest/userguide/acl-overview.html#canned-acl for valid ACLs."))
   else inr VNone, s).
Proof.
  unfold AmazonS3._check_acl_body.
  by destruct (truthy acl && negb (py_in acl AmazonS3.VALID_ACL)).
Qed.

Lemma init_run s aws_access_key_id aws_secret_access_key endpoint_url :
  AmazonS3.__init___body aws_access_key_id aws_secret_access_key
    endpoint_url X s =
  let d2 := <["aws_secret_access_key" := Val aws_secret_access_key]>
              (<["aws_access_key_id" := Val aws_access_key_id]>
                 (ob_dict (self s))) in
  let t1 := (trace s ++
               [Boto3Client "s3" aws_access_key_id endpoint_url
                  aws_secret_access_key])%list in
  match boto3_client X (trace s) "s3" aws_access_key_id endpoint_url
          aws_secret_access_key with
  | inl e =>
      (inl e,
       {| self := {| ob_class := ob_class (self s); ob_dict := d2 |};
          trace := t1 |})
  | inr c =>
      (inr VNone,
       {| self := {| ob_class := ob_class (self s);
                     ob_dict := <["s3_raw_client" := Client c]> d2 |};
          trace := t1 |})
  end.
Proof.
  unfold AmazonS3.__init___body, setattr, external, mbind, M_bind, mret,
    M_ret; simpl.
  by destruct (boto3_client _ _ _ _ _ _).
Qed.

End Runs.

(** ** Frame: what the methods leave alone *)

Section Frame.

Variable X : externals.

Lemma def5_self sig body args kwargs s :
  (forall a b c d e s0, self (body a b c d e X s0).2 = self s0) ->
  self (def5 sig body args kwargs X s).2 = self s.
Proof.
  intros Hbody. unfold def5.
  destruct (bind_args sig args kwargs) as [err|vals]; [done|].
  destruct vals as [|a [|b [|c [|d [|e [|? ?]]]]]];
    first [apply Hbody | done].
Qed.

Lemma def1_self sig body args kwargs s :
  (forall a s0, self (body a X s0).2 = self s0) ->
  self (def1 sig body args kwargs X s).2 = self s.
Proof.
  intros Hbody. unfold def1.
  destruct (bind_args sig args kwargs) as [err|vals]; [done|].
  destruct vals as [|a [|? ?]]; first [apply Hbody | done].
Qed.

(** The three operations never assign to [self]. *)
Lemma upload_from_local_file_self args kwargs s :
  self (AmazonS3.upload_from_local_file args kwargs X s).2 = self s.
Proof.
  apply def5_self. intros. rewrite upload_from_local_file_run.
  by destruct (ob_dict (self s0) !! "s3_raw_client") as [[?|?]|].
Qed.

Lemma upload_from_url_self args kwargs s :
  self (AmazonS3.upload_from_url args kwargs X s).2 = self s.
Proof.
  apply def5_self. intros. rewrite upload_from_url_run. simpl.
  destruct (requests_get X (trace s0) a) as [?|resp]; [done|].
  destruct (raise_for_status X resp); [done|].
  by destruct (ob_dict (self s0) !! "s3_raw_client") as [[?|?]|].
Qed.

Lemma check_acl_self args kwargs s :
  self (AmazonS3._check_acl args kwargs X s).2 = self s.
Proof. apply def1_self. intros. by rewrite check_acl_run. Qed.

(** [__init__] keeps a client the instance already has, or replaces it by
    a new one. *)
Lemma init_body_keeps_client a b c s c0 :
  has_client s c0 ->
  exists c1, has_client (AmazonS3.__init___body a b c X s).2 c1.
Proof.
  unfold has_client. intros H. rewrite init_run. simpl.
  destruct (boto3_client X (trace s) "s3" a c b) as [e|c1]; simpl.
  - exists c0. by rewrite !lookup_insert_ne.
  - exists c1. by rewrite lookup_insert_eq.
Qed.

Lemma init_keeps_client args kwargs s c0 :
  has_client s c0 ->
  exists c1, has_client (AmazonS3.__init__ args kwargs X s).2 c1.
Proof.
  intros H. unfold AmazonS3.__init__, def3.
  destruct (bind_args _ args kwargs) as [err|vals]; [by exists c0|].
  destruct vals as [|a [|b [|c [|? ?]]]]; try by exists c0.
  by eapply init_body_keeps_client.
Qed.

Lemma R2_init_keeps_client args kwargs s c0 :
  has_client s c0 ->
  exists c1, has_client (CloudflareR2.__init__ args kwargs X s).2 c1.
Proof.
  intros H. unfold CloudflareR2.__init__, def3.
  destruct (bind_args _ args kwargs) as [err|vals]; [by exists c0|].
  destruct vals as [|a [|b [|c [|? ?]]]]; try by exists c0.
  unfold CloudflareR2.__init___body, mbind, M_bind.
  destruct (init_keeps_client [a; b; c] [] s c0 H) as [c1 H1].
  exists c1.
  by destruct (AmazonS3.__init__ [a; b; c] [] X s) as [[e|v] s1].
Qed.

(** A method other than [__init__] resolves, in both classes, to one of
    the three operations of [AmazonS3], or to nothing. *)
Lemma resolve_cases cls name :
  name = "__init__" \/
  resolve cls name = None \/
  resolve cls name = Some AmazonS3._check_acl \/
  resolve cls name = Some AmazonS3.upload_from_local_file \/
  resolve cls name = Some AmazonS3.upload_from_url.
Proof.
  destruct (String.eqb_spec "__init__" name) as [|Hn]; [by left|right].
  apply String.eqb_neq in Hn.
  unfold resolve, resolve_in, mro, own_methods, assoc.
  destruct cls; rewrite Hn;
    destruct (String.eqb "_check_acl" name); auto;
    destruct (String.eqb "upload_from_local_file" name); auto;
    destruct (String.eqb "upload_from_url" name); auto.
Qed.

Lemma resolve_init cls :
  resolve cls "__init__" =
  Some match cls with
       | C_AmazonS3 => AmazonS3.__init__
       | C_CloudflareR2 => CloudflareR2.__init__
       end.
Proof. by destruct cls. Qed.

(** No method call takes the client away. *)
Lemma invoke_keeps_client name args kwargs s c0 :
  has_client s c0 ->
  exists c1, has_client (invoke name args kwargs X s).2 c1.
Proof.
  intros H. unfold invoke.
  destruct (resolve_cases (ob_class (self s)) name)
    as [->|[E|[E|[E|E]]]].
  - rewrite resolve_init. destruct (ob_class (self s)).
    + by eapply init_keeps_client.
    + by eapply R2_init_keeps_client.
  - rewrite E. by exists c0.
  - rewrite E. exists c0. unfold has_client. by rewrite check_acl_self.
  - rewrite E. exists c0. unfold has_client.
    by rewrite upload_from_local_file_self.
  - rewrite E. exists c0. unfold has_client.
    by rewrite upload_from_url_self.
Qed.

End Frame.

(** ** Reachable instances *)

Lemma construct_has_client X cls args kwargs t o t' :
  construct cls args kwargs X t = (inr o, t') ->
  exists c, has_client {| self := o; trace := t' |} c.
Proof.
  unfold construct, invoke. simpl. rewrite resolve_init.
  set (s0 := {| self := {| ob_class := cls; ob_dict := ∅ |}; trace := t |}).
  assert (Hinit : forall a b c v s1,
    AmazonS3.__init___body a b c X s0 = (inr v, s1) ->
    exists c1, has_client s1 c1).
  { intros a b c v s1. rewrite init_run. simpl.
    destruct (boto3_client X t "s3" a c b) as [e|c1]; [done|].
    intros [= _ <-]. exists c1. unfold has_client. simpl.
    by rewrite lookup_insert_eq. }
  destruct cls.
  - unfold AmazonS3.__init__, def3.
    destruct (bind_args _ args kwargs) as [err|vals]; [done|].
    destruct vals as [|a [|b [|c [|? ?]]]]; try done.
    destruct (AmazonS3.__init___body a b c X s0) as [[e|v] s1] eqn:E; [done|].
    intros [= <- <-]. destruct (Hinit _ _ _ _ _ E) as [c1 H1].
    by exists c1.
  - unfold CloudflareR2.__init__, def3.
    destruct (bind_args _ args kwargs) as [err|vals]; [done|].
    destruct vals as [|a [|b [|c [|? ?]]]]; try done.
    unfold CloudflareR2.__init___body, mbind, M_bind.
    change (AmazonS3.__init__ [a; b; c] [] X s0)
      with (AmazonS3.__init___body a b c X s0).
    destruct (AmazonS3.__init___body a b c X s0) as [[e|v] s1] eqn:E; [done|].
    unfold mret, M_ret.
    intros [= <- <-]. destruct (Hinit _ _ _ _ _ E) as [c1 H1].
    by exists c1.
Qed.

(** Every reachable instance has its client. *)
Lemma reachable_has_client X s :
  reachable X s -> exists c, has_client s c.
Proof.
  induction 1 as [cls args kwargs t o t' H|s name args kwargs _ [c IH]
                 |s ev _ [c IH]].
  - by eapply construct_has_client.
  - by eapply invoke_keeps_client.
  - by exists c.
Qed.

(** ** The public URL *)

Lemma new_events_logged {A : Type} (s : state) (r : exn + A) evs :
  new_events s (r, logged s evs) = evs.
Proof. unfold new_events, logged. simpl. by rewrite drop_app_length. Qed.

Lemma public_url_str (bucket_name object_name bucket_domain : string) :
  AmazonS3.public_url (VStr bucket_name) (VStr object_name)
    (VStr bucket_domain) =
  VStr (if decide (bucket_domain = "")
        then "https://" +:+ bucket_name +:+ ".s3.amazonaws.com/" +:+
             object_name
        else "https://" +:+ bucket_domain +:+ "/" +:+ object_name).
Proof.
  unfold AmazonS3.public_url.
  destruct (decide (bucket_domain = "")) as [->|Hne]; [done|].
  by destruct bucket_domain.
Qed.

(** C1. Whenever [upload_from_local_file] or [upload_from_url] returns, the
    string it returns is exactly [https://{bucket_domain}/{object_name}] if
    [bucket_domain] is not empty, whatever [bucket_name] is, and exactly
    [https://{bucket_name}.s3.amazonaws.com/{object_name}] if it is
    empty. *)
Theorem upload_returns_public_url
    X s args kwargs (src bucket_name object_name acl bucket_domain : string)
    (r : pyval) :
  (bind_args AmazonS3.upload_from_local_file_sig args kwargs =
     inr [VStr src; VStr bucket_name; VStr object_name; VStr acl;
          VStr bucket_domain] /\
   returns (AmazonS3.upload_from_local_file args kwargs X s) r) \/
  (bind_args AmazonS3.upload_from_url_sig args kwargs =
     inr [VStr src; VStr bucket_name; VStr object_name; VStr acl;
          VStr bucket_domain] /\
   returns (AmazonS3.upload_from_url args kwargs X s) r) ->
  (bucket_domain <> "" ->
   r = VStr ("https://" +:+ bucket_domain +:+ "/" +:+ object_name)) /\
  (bucket_domain = "" ->
   r = VStr ("https://" +:+ bucket_name +:+ ".s3.amazonaws.com/" +:+
             object_name)).
Proof.
  intros H.
  assert (Hr : r = AmazonS3.public_url (VStr bucket_name) (VStr object_name)
                     (VStr bucket_domain)).
  { destruct H as [[Hb Hret]|[Hb Hret]]; unfold returns in Hret.
    - unfold AmazonS3.upload_from_local_file in Hret.
      rewrite (def5_bound _ _ _ _ _ _ _ _ _ Hb) in Hret.
      rewrite upload_from_local_file_run in Hret.
      destruct (ob_dict (self s) !! "s3_raw_client") as [[?|c]|];
        try discriminate.
      simpl in Hret.
      destruct (client_upload_file _ _ _ _ _ _ _); congruence.
    - unfold AmazonS3.upload_from_url in Hret.
      rewrite (def5_bound _ _ _ _ _ _ _ _ _ Hb) in Hret.
      rewrite upload_from_url_run in Hret. simpl in Hret.
      destruct (requests_get _ _ _) as [?|resp]; [discriminate|].
      destruct (raise_for_status X resp); [discriminate|].
      destruct (ob_dict (self s) !! "s3_raw_client") as [[?|c]|];
        try discriminate.
      simpl in Hret.
      destruct (client_put_object _ _ _ _ _ _ _); congruence. }
  rewrite Hr, public_url_str.
  split; intros Hd; by case_decide.
Qed.

Lemma upload_returns_public_url_witness :
  returns
    (AmazonS3.upload_from_local_file
       [VStr "/tmp/x.png"; VStr "mybucket"; VStr "images/x.png"]
       [("bucket_domain", VStr "cdn.example.com")] Mock.world Mock.fresh)
    (VStr "https://cdn.example.com/images/x.png") /\
  ("cdn.example.com" <> "" ->
   VStr "https://cdn.example.com/images/x.png" =
   VStr ("https://" +:+ "cdn.example.com" +:+ "/" +:+ "images/x.png")).
Proof.
  assert (H : returns
    (AmazonS3.upload_from_local_file
       [VStr "/tmp/x.png"; VStr "mybucket"; VStr "images/x.png"]
       [("bucket_domain", VStr "cdn.example.com")] Mock.world Mock.fresh)
    (VStr "https://cdn.example.com/images/x.png"))
    by (vm_compute; reflexivity).
  split; [exact H|].
  apply (upload_returns_public_url Mock.world Mock.fresh
           [VStr "/tmp/x.png"; VStr "mybucket"; VStr "images/x.png"]
           [("bucket_domain", VStr "cdn.example.com")]
           "/tmp/x.png" "mybucket" "images/x.png" "public-read"
           "cdn.example.com").
  left. split; [reflexivity|exact H].
Defined.

(** ** ACL validation *)

Lemma invalid_acl_iff (acl : string) :
  truthy (VStr acl) && negb (py_in (VStr acl) AmazonS3.VALID_ACL) = true <->
  acl <> "" /\
  acl ∉ ["private"; "public-read"; "public-read-write";
         "authenticated-read"; "aws-exec-read"; "bucket-owner-read";
         "bucket-owner-full-control"; "log-delivery-write"].
Proof.
  rewrite andb_true_iff, negb_true_iff.
  unfold py_in, AmazonS3.VALID_ACL, existsb, py_eq.
  rewrite !orb_false_iff, !String.eqb_neq, !not_elem_of_cons.
  destruct acl as [|a acl]; simpl.
  - split; [intros [[=] _]|intros [[] _]; reflexivity].
  - split.
    + intros [_ H]. split; [discriminate|].
      repeat match goal with H : _ /\ _ |- _ => destruct H end.
      repeat (split; [done|]). apply not_elem_of_nil.
    + intros [_ H]. split; [done|].
      repeat match goal with H : _ /\ _ |- _ => destruct H end.
      repeat (split; [done|]). done.
Qed.

(** C2. For every string [acl], [_check_acl] raises if and only if [acl]
    is not empty and not one of the eight canned ACLs; what it raises is a
    [ValueError] whose message names the value and points to the
    documentation; for an [acl] that is empty or canned it returns [None]
    and does nothing else. *)
Theorem check_acl_raises_iff_invalid X s args kwargs (acl : string) :
  bind_args AmazonS3._check_acl_sig args kwargs = inr [VStr acl] ->
  let canned :=
    ["private"; "public-read"; "public-read-write"; "authenticated-read";
     "aws-exec-read"; "bucket-owner-read"; "bucket-owner-full-control";
     "log-delivery-write"] in
  let run := AmazonS3._check_acl args kwargs X s in
  ((exists e, raises run e) <-> acl <> "" /\ acl ∉ canned) /\
  (acl <> "" /\ acl ∉ canned ->
   run =
   (inl (ValueError
      ("Invalid ACL: " +:+ acl +:+
       ". Please check the https://docs.aws.amazon.com/AmazonS3/latest/userguide/acl-overview.html#canned-acl for valid ACLs.")),
    s)) /\
  (acl = "" \/ acl ∈ canned -> run = (inr VNone, s)).
Proof.
  intros Hb canned run. subst run.
  unfold AmazonS3._check_acl. rewrite (def1_bound _ _ _ _ _ Hb).
  rewrite check_acl_run.
  pose proof (invalid_acl_iff acl) as Hiff. fold canned in Hiff.
  destruct (truthy (VStr acl) && negb (py_in (VStr acl) AmazonS3.VALID_ACL)).
  - assert (Hinv : acl <> "" /\ acl ∉ canned) by by apply Hiff.
    split; [|split].
    + split; [done|]. intros _. eexists. reflexivity.
    + done.
    + intros [->|Hin]; [by destruct Hinv|]. by destruct Hinv.
  - assert (Hval : ~ (acl <> "" /\ acl ∉ canned)).
    { intros H. apply Hiff in H. discriminate. }
    split; [|split].
    + split; [|done]. intros [e He]. discriminate.
    + done.
    + done.
Qed.

Lemma check_acl_raises_iff_invalid_witness :
  exists e,
    raises (AmazonS3._check_acl [] [("acl", VStr "public")] Mock.world
              Mock.fresh) e.
Proof.
  apply (check_acl_raises_iff_invalid Mock.world Mock.fresh []
           [("acl", VStr "public")] "public" eq_refl).
  split; [discriminate|].
  rewrite !not_elem_of_cons.
  repeat (split; [discriminate|]). apply not_elem_of_nil.
Defined.

(** ** Fetching, then storing *)

Ltac fresh_is_reachable :=
  refine (reach_construct Mock.world C_AmazonS3
            [VStr "AKIA"; VStr "secret"] [] [] _ _ _);
  vm_compute; reflexivity.

(** Once [raise_for_status] raises, the operation raises that error, and the
    GET is the only outside call of the run. *)
Lemma raised_status_skips_put_object
    X s args kwargs url bucket_name object_name acl bucket_domain resp e :
  bind_args AmazonS3.upload_from_url_sig args kwargs =
    inr [url; bucket_name; object_name; acl; bucket_domain] ->
  requests_get X (trace s) url = inr resp ->
  raise_for_status X resp = Some e ->
  let run := AmazonS3.upload_from_url args kwargs X s in
  raises run e /\
  new_events s run = [RequestsGet url] /\
  forall c b k body a, PutObject c b k body a ∉ new_events s run.
Proof.
  intros Hb Hget Hstatus run. subst run.
  unfold AmazonS3.upload_from_url. rewrite (def5_bound _ _ _ _ _ _ _ _ _ Hb).
  rewrite upload_from_url_run. simpl. rewrite Hget, Hstatus.
  rewrite new_events_logged. split; [done|]. split; [done|].
  intros c b k body a Hin. apply list_elem_of_singleton in Hin. discriminate.
Qed.

Lemma Mock_follows_requests : requests_status_rule Mock.world.
Proof.
  intros resp. simpl. unfold Mock.http_error.
  destruct (Z.leb_spec 400 (status_code resp)),
    (Z.ltb_spec (status_code resp) 600); simpl; split;
    first [intros [e He]; discriminate | intros; lia | intros; by eexists].
Qed.

(** A status that is not a success need not be a failure for
    [raise_for_status]: a 304 is not in the 2xx range, and under the rule of
    [requests] the operation returns and the (empty) body is put. *)
Lemma non_2xx_status_is_stored :
  requests_status_rule Mock.world /\
  exists resp,
    requests_get Mock.world (trace Mock.fresh)
      (VStr "https://example.com/cached") = inr resp /\
    status_code resp = 304%Z /\
    ~ (200 <= status_code resp < 300)%Z /\
    let run :=
      AmazonS3.upload_from_url
        [VStr "https://example.com/cached"; VStr "mybucket"; VStr "page"] []
        Mock.world Mock.fresh in
    returns run (VStr "https://mybucket.s3.amazonaws.com/page") /\
    (forall e, ~ raises run e) /\
    new_events Mock.fresh run =
      [RequestsGet (VStr "https://example.com/cached");
       PutObject (RawClient 0) (VStr "mybucket") (VStr "page")
         (BytesIO_new []) (VStr "public-read")].
Proof.
  split; [apply Mock_follows_requests|].
  exists {| status_code := 304; content := [] |}.
  split; [reflexivity|]. split; [reflexivity|]. split; [simpl; lia|].
  split; [vm_compute; reflexivity|]. split; [|vm_compute; reflexivity].
  intros e He. vm_compute in He. discriminate.
Qed.

(** C3, amended. When the GET of [upload_from_url] comes back with a status
    from 400 to 599 (a 404, say), which are the statuses [raise_for_status]
    raises for, the operation raises that error, and no put-object call is
    made: the GET is the only outside call of the run. *)
Theorem error_status_skips_put_object
    X s args kwargs url bucket_name object_name acl bucket_domain resp :
  requests_status_rule X ->
  bind_args AmazonS3.upload_from_url_sig args kwargs =
    inr [url; bucket_name; object_name; acl; bucket_domain] ->
  requests_get X (trace s) url = inr resp ->
  (400 <= status_code resp < 600)%Z ->
  let run := AmazonS3.upload_from_url args kwargs X s in
  exists e,
    raise_for_status X resp = Some e /\
    raises run e /\
    new_events s run = [RequestsGet url] /\
    forall c b k body a, PutObject c b k body a ∉ new_events s run.
Proof.
  intros Hrule Hb Hget Hstatus run.
  destruct (proj2 (Hrule resp) Hstatus) as [e He].
  exists e. split; [exact He|].
  by apply (raised_status_skips_put_object X s args kwargs url bucket_name
              object_name acl bucket_domain resp e).
Qed.

Lemma error_status_skips_put_object_witness :
  let run :=
    AmazonS3.upload_from_url
      [VStr "https://example.com/gone"; VStr "mybucket"; VStr "gone.txt"] []
      Mock.world Mock.fresh in
  exists e,
    raise_for_status Mock.world
      {| status_code := 404; content := [x6e; x6f] |} = Some e /\
    raises run e /\
    new_events Mock.fresh run =
      [RequestsGet (VStr "https://example.com/gone")] /\
    forall c b k body a, PutObject c b k body a ∉ new_events Mock.fresh run.
Proof.
  apply (error_status_skips_put_object Mock.world Mock.fresh
           [VStr "https://example.com/gone"; VStr "mybucket"; VStr "gone.txt"]
           [] (VStr "https://example.com/gone") (VStr "mybucket")
           (VStr "gone.txt") (VStr "public-read") (VStr "")
           {| status_code := 404; content := [x6e; x6f] |}).
  - apply Mock_follows_requests.
  - reflexivity.
  - reflexivity.
  - simpl. lia.
Defined.

(** C4. When the GET of [upload_from_url] succeeds, the body handed to the
    put-object call holds exactly the bytes of the response body: the same
    bytes, all of them, in the same order. *)
Theorem put_object_body_is_response_content
    X s args kwargs url bucket_name object_name acl bucket_domain resp :
  reachable X s ->
  bind_args AmazonS3.upload_from_url_sig args kwargs =
    inr [url; bucket_name; object_name; acl; bucket_domain] ->
  requests_get X (trace s) url = inr resp ->
  raise_for_status X resp = None ->
  let run := AmazonS3.upload_from_url args kwargs X s in
  exists c body,
    new_events s run =
      [RequestsGet url; PutObject c bucket_name object_name body acl] /\
    BytesIO_read body = content resp.
Proof.
  intros Hreach Hb Hget Hstatus run. subst run.
  destruct (reachable_has_client X s Hreach) as [c Hc].
  unfold AmazonS3.upload_from_url. rewrite (def5_bound _ _ _ _ _ _ _ _ _ Hb).
  rewrite upload_from_url_run. simpl. rewrite Hget, Hstatus, Hc.
  rewrite new_events_logged.
  exists c, (BytesIO_new (content resp)). split; reflexivity.
Qed.

Lemma put_object_body_is_response_content_witness :
  exists c body,
    new_events Mock.fresh
      (AmazonS3.upload_from_url
         [VStr "https://example.com/cat.png"; VStr "mybucket"]
         [("object_name", VStr "cat.png")] Mock.world Mock.fresh) =
      [RequestsGet (VStr "https://example.com/cat.png");
       PutObject c (VStr "mybucket") (VStr "cat.png") body
         (VStr "public-read")] /\
    BytesIO_read body = [x89; x50; x4e; x47; x00; xff].
Proof.
  apply (put_object_body_is_response_content Mock.world Mock.fresh
           [VStr "https://example.com/cat.png"; VStr "mybucket"]
           [("object_name", VStr "cat.png")]
           (VStr "https://example.com/cat.png") (VStr "mybucket")
           (VStr "cat.png") (VStr "public-read") (VStr "")
           {| status_code := 200;
              content := [x89; x50; x4e; x47; x00; xff] |}).
  - fresh_is_reachable.
  - reflexivity.
  - reflexivity.
  - reflexivity.
Defined.

(** ** Construction *)

Lemma construct_unbound X cls t args kwargs why :
  bind_args (init_sig cls) args kwargs = inl why ->
  construct cls args kwargs X t = (inl (TypeError why), t).
Proof.
  intros Hb. unfold construct, invoke. simpl. rewrite resolve_init.
  destruct cls; simpl in Hb;
    unfold AmazonS3.__init__, CloudflareR2.__init__, def3; by rewrite Hb.
Qed.

Lemma construct_bound X cls t args kwargs k s e :
  bind_args (init_sig cls) args kwargs = inr [k; s; e] ->
  construct cls args kwargs X t =
  (match boto3_client X t "s3" k e s with
   | inl x => inl x
   | inr c => inr (instance cls k s c)
   end,
   (t ++ [Boto3Client "s3" k e s])%list).
Proof.
  intros Hb. unfold construct, invoke. simpl. rewrite resolve_init.
  destruct cls; simpl in Hb.
  - unfold AmazonS3.__init__. rewrite (def3_bound _ _ _ _ _ _ _ Hb).
    rewrite init_run. simpl. by destruct (boto3_client _ _ _ _ _ _).
  - unfold CloudflareR2.__init__. rewrite (def3_bound _ _ _ _ _ _ _ Hb).
    unfold CloudflareR2.__init___body, mbind, M_bind.
    change (AmazonS3.__init__ [k; s; e] [])
      with (AmazonS3.__init___body k s e).
    rewrite init_run. simpl. by destruct (boto3_client _ _ _ _ _ _).
Qed.

(** Construction either fails to bind, or is [construct_bound]. *)
Lemma construct_cases cls args kwargs :
  (exists why, bind_args (init_sig cls) args kwargs = inl why) \/
  (exists k s e, bind_args (init_sig cls) args kwargs = inr [k; s; e]).
Proof.
  destruct (bind_args (init_sig cls) args kwargs) as [why|vals] eqn:Hb;
    [left; by exists why|right].
  pose proof (bind_args_length _ _ _ _ Hb) as Hlen.
  replace (length (init_sig cls)) with 3 in Hlen by by destruct cls.
  destruct vals as [|k [|s [|e [|? ?]]]]; try discriminate.
  by exists k, s, e.
Qed.

(** ** No validation on the way to the SDK *)

(** C5. The uploads and the constructor never go through [_check_acl]:
    for every [acl] string, canned or not, an upload hands [acl] to the SDK
    call as it is, returns whenever the SDK call returns, and raises nothing
    but what the SDK call raised; and a constructor raises nothing but a
    binding error or what [boto3.client] raised. *)
Theorem uploads_forward_acl_unchecked
    X s args kwargs (src bucket_name object_name acl bucket_domain : string) :
  reachable X s ->
  let vals :=
    [VStr src; VStr bucket_name; VStr object_name; VStr acl;
     VStr bucket_domain] in
  let url := AmazonS3.public_url (VStr bucket_name) (VStr object_name)
               (VStr bucket_domain) in
  (bind_args AmazonS3.upload_from_local_file_sig args kwargs = inr vals ->
   exists c,
     let run := AmazonS3.upload_from_local_file args kwargs X s in
     let answer := client_upload_file X (trace s) c (VStr src)
                     (VStr bucket_name) (VStr object_name)
                     [("ACL", VStr acl)] in
     new_events s run =
       [UploadFile c (VStr src) (VStr bucket_name) (VStr object_name)
          [("ACL", VStr acl)]] /\
     (answer = None -> returns run url) /\
     (forall e, raises run e -> answer = Some e)) /\
  (bind_args AmazonS3.upload_from_url_sig args kwargs = inr vals ->
   forall resp,
     requests_get X (trace s) (VStr src) = inr resp ->
     raise_for_status X resp = None ->
     exists c,
       let run := AmazonS3.upload_from_url args kwargs X s in
       let answer := client_put_object X (trace s ++ [RequestsGet (VStr src)])
                       c (VStr bucket_name) (VStr object_name)
                       (BytesIO_new (content resp)) (VStr acl) in
       new_events s run =
         [RequestsGet (VStr src);
          PutObject c (VStr bucket_name) (VStr object_name)
            (BytesIO_new (content resp)) (VStr acl)] /\
       (answer = None -> returns run url) /\
       (forall e, raises run e -> answer = Some e)) /\
  (forall cls c_args c_kwargs t e,
     (construct cls c_args c_kwargs X t).1 = inl e ->
     (exists why, e = TypeError why) \/
     (exists k sk ep, boto3_client X t "s3" k ep sk = inl e)).
Proof.
  intros Hreach vals url. subst vals url.
  destruct (reachable_has_client X s Hreach) as [c Hc].
  unfold has_client in Hc.
  split; [|split].
  - intros Hb. exists c. intros run answer.
    assert (Hrun : run =
      (match answer with
       | Some e => inl e
       | None => inr (AmazonS3.public_url (VStr bucket_name)
                        (VStr object_name) (VStr bucket_domain))
       end,
       logged s [UploadFile c (VStr src) (VStr bucket_name)
                   (VStr object_name) [("ACL", VStr acl)]])).
    { subst run answer. unfold AmazonS3.upload_from_local_file.
      rewrite (def5_bound _ _ _ _ _ _ _ _ _ Hb).
      by rewrite upload_from_local_file_run, Hc. }
    rewrite Hrun, new_events_logged. unfold returns, raises. simpl.
    destruct answer; (split; [done|]); split; intros; congruence.
  - intros Hb resp Hget Hstatus. exists c. intros run answer.
    assert (Hrun : run =
      (match answer with
       | Some e => inl e
       | None => inr (AmazonS3.public_url (VStr bucket_name)
                        (VStr object_name) (VStr bucket_domain))
       end,
       logged s [RequestsGet (VStr src);
                 PutObject c (VStr bucket_name) (VStr object_name)
                   (BytesIO_new (content resp)) (VStr acl)])).
    { subst run answer. unfold AmazonS3.upload_from_url.
      rewrite (def5_bound _ _ _ _ _ _ _ _ _ Hb).
      rewrite upload_from_url_run. simpl. by rewrite Hget, Hstatus, Hc. }
    rewrite Hrun, new_events_logged. unfold returns, raises. simpl.
    destruct answer; (split; [done|]); split; intros; congruence.
  - intros cls c_args c_kwargs t e.
    destruct (construct_cases cls c_args c_kwargs)
      as [[why Hb]|(k & sk & ep & Hb)].
    + rewrite (construct_unbound _ _ _ _ _ _ Hb). simpl.
      intros [= <-]. left. by exists why.
    + rewrite (construct_bound _ _ _ _ _ _ _ _ Hb). simpl.
      destruct (boto3_client X t "s3" k ep sk) as [x|c1] eqn:E; [|done].
      intros [= <-]. right. by exists k, sk, ep.
Qed.

Lemma uploads_forward_acl_unchecked_witness :
  exists c,
    new_events Mock.fresh
      (AmazonS3.upload_from_local_file
         [VStr "/tmp/x.png"; VStr "mybucket"; VStr "x.png"]
         [("acl", VStr "bogus")] Mock.world Mock.fresh) =
    [UploadFile c (VStr "/tmp/x.png") (VStr "mybucket") (VStr "x.png")
       [("ACL", VStr "bogus")]] /\
    returns
      (AmazonS3.upload_from_local_file
         [VStr "/tmp/x.png"; VStr "mybucket"; VStr "x.png"]
         [("acl", VStr "bogus")] Mock.world Mock.fresh)
      (VStr "https://mybucket.s3.amazonaws.com/x.png").
Proof.
  assert (Hreach : reachable Mock.world Mock.fresh) by fresh_is_reachable.
  destruct (uploads_forward_acl_unchecked Mock.world Mock.fresh
              [VStr "/tmp/x.png"; VStr "mybucket"; VStr "x.png"]
              [("acl", VStr "bogus")]
              "/tmp/x.png" "mybucket" "x.png" "bogus" "" Hreach)
    as [Hlocal _].
  destruct (Hlocal eq_refl) as (c & Hev & Hret & _).
  exists c. split; [exact Hev|]. apply Hret. reflexivity.
Defined.

(** ** Failures *)

(** C8. A failure of the SDK transfer call or of the HTTP fetch reaches the
    caller as it was raised: an upload raises [e] exactly when the outside
    call it made raised [e], and it makes each outside call once. *)
Theorem failures_propagate_unmodified
    X s args kwargs src bucket_name object_name acl bucket_domain :
  reachable X s ->
  (bind_args AmazonS3.upload_from_local_file_sig args kwargs =
     inr [src; bucket_name; object_name; acl; bucket_domain] ->
   let run := AmazonS3.upload_from_local_file args kwargs X s in
   exists c,
     has_client s c /\
     new_events s run =
       [UploadFile c src bucket_name object_name [("ACL", acl)]] /\
     forall e,
       raises run e <->
       client_upload_file X (trace s) c src bucket_name object_name
         [("ACL", acl)] = Some e) /\
  (bind_args AmazonS3.upload_from_url_sig args kwargs =
     inr [src; bucket_name; object_name; acl; bucket_domain] ->
   let run := AmazonS3.upload_from_url args kwargs X s in
   exists c,
     has_client s c /\
     (new_events s run = [RequestsGet src] \/
      exists body,
        new_events s run =
          [RequestsGet src; PutObject c bucket_name object_name body acl]) /\
     forall e,
       raises run e <->
       requests_get X (trace s) src = inl e \/
       exists resp,
         requests_get X (trace s) src = inr resp /\
         (raise_for_status X resp = Some e \/
          raise_for_status X resp = None /\
          client_put_object X (trace s ++ [RequestsGet src]) c bucket_name
            object_name (BytesIO_new (content resp)) acl = Some e)).
Proof.
  intros Hreach.
  destruct (reachable_has_client X s Hreach) as [c Hc].
  split; intros Hb run; exists c; (split; [exact Hc|]); subst run;
    unfold has_client in Hc.
  - unfold AmazonS3.upload_from_local_file.
    rewrite (def5_bound _ _ _ _ _ _ _ _ _ Hb).
    rewrite upload_from_local_file_run, Hc, new_events_logged.
    split; [done|]. intros e. unfold raises. simpl.
    destruct (client_upload_file _ _ _ _ _ _ _); split; intros; congruence.
  - unfold AmazonS3.upload_from_url.
    rewrite (def5_bound _ _ _ _ _ _ _ _ _ Hb).
    rewrite upload_from_url_run. simpl. unfold raises.
    destruct (requests_get X (trace s) src) as [e0|resp].
    { rewrite new_events_logged. split; [by left|].
      intros e. simpl. split.
      - intros [= <-]. by left.
      - intros [[= <-]|(resp & [=] & _)]. done. }
    destruct (raise_for_status X resp) as [e0|] eqn:Hstatus.
    { rewrite new_events_logged. split; [by left|].
      intros e. simpl. split.
      - intros [= <-]. right. exists resp. split; [done|]. by left.
      - intros [[=]|(resp' & [= <-] & [He|[He _]])]; congruence. }
    rewrite Hc, new_events_logged. split; [right; by eexists|].
    intros e. simpl.
    destruct (client_put_object _ _ _ _ _ _ _) as [e0|] eqn:Hput; split.
    + intros [= <-]. right. exists resp. split; [done|]. right. done.
    + intros [[=]|(resp' & [= <-] & [He|[_ He]])]; congruence.
    + intros [=].
    + intros [[=]|(resp' & [= <-] & [He|[_ He]])]; congruence.
Qed.

Lemma failures_propagate_unmodified_witness :
  raises
    (AmazonS3.upload_from_local_file
       [VStr "/tmp/x.png"; VStr "forbidden"; VStr "x.png"] [] Mock.world
       Mock.fresh)
    (Raised "botocore.exceptions.ClientError" "AccessDenied").
Proof.
  assert (Hreach : reachable Mock.world Mock.fresh) by fresh_is_reachable.
  destruct (failures_propagate_unmodified Mock.world Mock.fresh
              [VStr "/tmp/x.png"; VStr "forbidden"; VStr "x.png"] []
              (VStr "/tmp/x.png") (VStr "forbidden") (VStr "x.png")
              (VStr "public-read") (VStr "") Hreach) as [Hlocal _].
  destruct (Hlocal eq_refl) as (c & _ & _ & Hiff).
  apply Hiff. reflexivity.
Defined.

(** ** Credentials *)

Lemma operation_keeps_self X s name args kwargs :
  name ∈ operations ->
  self (invoke name args kwargs X s).2 = self s.
Proof.
  intros Hname. unfold invoke.
  destruct (resolve_cases (ob_class (self s)) name) as [->|[E|[E|[E|E]]]].
  - exfalso. unfold operations in Hname. rewrite !elem_of_cons in Hname.
    destruct Hname as [?|[?|[?|H]]]; try discriminate.
    by apply elem_of_nil in H.
  - by rewrite E.
  - rewrite E. apply check_acl_self.
  - rewrite E. apply upload_from_local_file_self.
  - rewrite E. apply upload_from_url_self.
Qed.

(** C9. The credentials an instance holds are not changed by
    [upload_from_local_file], [upload_from_url] or [_check_acl], whether the
    call returns or raises: these methods leave every attribute of the
    instance as it was. *)
Theorem operations_keep_credentials X s name args kwargs :
  name ∈ ["upload_from_local_file"; "upload_from_url"; "_check_acl"] ->
  let s' := (invoke name args kwargs X s).2 in
  ob_dict (self s') !! "aws_access_key_id" =
    ob_dict (self s) !! "aws_access_key_id" /\
  ob_dict (self s') !! "aws_secret_access_key" =
    ob_dict (self s) !! "aws_secret_access_key" /\
  self s' = self s.
Proof.
  intros Hname s'.
  assert (Hself : self s' = self s) by by apply operation_keeps_self.
  by rewrite Hself.
Qed.

Lemma operations_keep_credentials_witness :
  ob_dict (self (invoke "upload_from_url"
                   [VStr "https://example.com/gone"; VStr "b"; VStr "k"] []
                   Mock.world Mock.fresh).2) !! "aws_secret_access_key" =
  Some (Val (VStr "secret")).
Proof.
  destruct (operations_keep_credentials Mock.world Mock.fresh
              "upload_from_url"
              [VStr "https://example.com/gone"; VStr "b"; VStr "k"] [])
    as (_ & H & _).
  - rewrite !elem_of_cons. right. left. reflexivity.
  - rewrite H. vm_compute. reflexivity.
Defined.

(** What construction stored is still there after any number of
    operations. *)
Lemma construct_stores_credentials X cls t args kwargs k sk e o t' :
  bind_args (init_sig cls) args kwargs = inr [k; sk; e] ->
  construct cls args kwargs X t = (inr o, t') ->
  ob_dict o !! "aws_access_key_id" = Some (Val k) /\
  ob_dict o !! "aws_secret_access_key" = Some (Val sk).
Proof.
  intros Hb. rewrite (construct_bound _ _ _ _ _ _ _ _ Hb).
  destruct (boto3_client X t "s3" k e sk) as [x|c]; [done|].
  intros [= <- _]. simpl.
  split; by simplify_map_eq.
Qed.

Lemma after_calls_self X calls s :
  Forall (fun c : call => c.1.1 ∈ operations) calls ->
  self (after_calls calls X s) = self s.
Proof.
  intros Hcalls. revert s.
  induction Hcalls as [|[[name args] kwargs] calls Hname _ IH]; intros s;
    simpl; [done|].
  rewrite IH. by apply operation_keeps_self.
Qed.

(** ** Binding under a signature with fewer defaults *)

Section SameNames.

Variable f : param -> param.
Hypothesis f_name : forall p, p_name (f p) = p_name p.

Lemma fill_positional_map sig args :
  fill_positional (map f sig) args =
  map (on_param f) (fill_positional sig args).
Proof.
  revert args. induction sig as [|p sig IH]; intros args; [done|].
  destruct args; simpl; by rewrite IH.
Qed.

Lemma set_keyword_map k v slots :
  set_keyword k v (map (on_param f) slots) =
  match set_keyword k v slots with
  | inl e => inl e
  | inr slots' => inr (map (on_param f) slots')
  end.
Proof.
  induction slots as [|[p o] rest IH]; simpl; [done|].
  rewrite f_name. destruct (String.eqb (p_name p) k).
  - by destruct o.
  - rewrite IH. by destruct (set_keyword k v rest).
Qed.

Lemma fill_keywords_map kwargs slots :
  fill_keywords kwargs (map (on_param f) slots) =
  match fill_keywords kwargs slots with
  | inl e => inl e
  | inr slots' => inr (map (on_param f) slots')
  end.
Proof.
  revert slots. induction kwargs as [|[k v] kwargs IH]; intros slots; simpl;
    [done|].
  rewrite set_keyword_map.
  destruct (set_keyword k v slots) as [e|slots1]; [done|]. apply IH.
Qed.

End SameNames.

(** When no parameter without a default is left without a value, the
    defaults the signature has make no difference. *)
Lemma missing_undefaulted slots :
  missing (map (on_param undefaulted) slots) = [] ->
  missing slots = [] /\
  fill_defaults slots = fill_defaults (map (on_param undefaulted) slots).
Proof.
  induction slots as [|[p [v|]] rest IH]; simpl; [done| |done].
  intros H. destruct (IH H) as [H1 H2]. by rewrite H2.
Qed.

(** Arguments that bind without the defaults bind to the same values with
    them. *)
Lemma bind_args_undefaulted sig args kwargs vals :
  bind_args (map undefaulted sig) args kwargs = inr vals ->
  bind_args sig args kwargs = inr vals.
Proof.
  unfold bind_args.
  rewrite fill_positional_map, fill_keywords_map by done.
  rewrite length_map.
  destruct (fill_keywords kwargs (fill_positional sig args)) as [e|slots];
    [done|].
  destruct (Nat.ltb _ _); [done|].
  destruct (missing (map (on_param undefaulted) slots)) eqn:Hm; [|done].
  destruct (missing_undefaulted _ Hm) as [-> ->]. done.
Qed.

(** ** The subclass *)

Lemma class_blind_ret {A : Type} (a : A) : class_blind (mret a).
Proof. done. Qed.

Lemma class_blind_raise {A : Type} (e : exn) : class_blind (@raise A e).
Proof. done. Qed.

Lemma class_blind_bind {A B : Type} (m : M A) (k : A -> M B) :
  class_blind m -> (forall a, class_blind (k a)) -> class_blind (m ≫= k).
Proof.
  intros Hm Hk X cls s. unfold mbind, M_bind. rewrite Hm.
  destruct (m X s) as [[e|a] s1]; simpl; [done|]. apply Hk.
Qed.

Lemma class_blind_getattr name : class_blind (getattr name).
Proof.
  intros X cls s. unfold getattr. simpl.
  by destruct (ob_dict (self s) !! name).
Qed.

Lemma class_blind_setattr name a : class_blind (setattr name a).
Proof. done. Qed.

Lemma class_blind_external {A : Type} ev
    (answer : externals -> list event -> exn + A) :
  class_blind (external ev answer).
Proof. done. Qed.

Lemma class_blind_raise_for_status resp :
  class_blind (response_raise_for_status resp).
Proof. done. Qed.

Lemma class_blind_get_s3_raw_client name :
  class_blind (get_s3_raw_client name).
Proof.
  apply class_blind_bind; [apply class_blind_getattr|].
  intros [v|c]; [apply class_blind_raise|apply class_blind_ret].
Qed.

Create HintDb blind.

#[local] Hint Resolve class_blind_ret class_blind_raise class_blind_getattr
  class_blind_setattr class_blind_external class_blind_raise_for_status
  class_blind_get_s3_raw_client : blind.

Ltac blind :=
  repeat first
    [ solve [auto with blind]
    | apply class_blind_bind; [|intros ?] ].

Lemma class_blind_def1 sig body args kwargs :
  (forall a, class_blind (body a)) ->
  class_blind (def1 sig body args kwargs).
Proof.
  intros H. unfold def1. destruct (bind_args sig args kwargs) as [e|vals];
    [apply class_blind_raise|].
  destruct vals as [|a [|? ?]]; first [apply H|apply class_blind_raise].
Qed.

Lemma class_blind_def3 sig body args kwargs :
  (forall a b c, class_blind (body a b c)) ->
  class_blind (def3 sig body args kwargs).
Proof.
  intros H. unfold def3. destruct (bind_args sig args kwargs) as [e|vals];
    [apply class_blind_raise|].
  destruct vals as [|a [|b [|c [|? ?]]]];
    first [apply H|apply class_blind_raise].
Qed.

Lemma class_blind_def5 sig body args kwargs :
  (forall a b c d e, class_blind (body a b c d e)) ->
  class_blind (def5 sig body args kwargs).
Proof.
  intros H. unfold def5. destruct (bind_args sig args kwargs) as [e|vals];
    [apply class_blind_raise|].
  destruct vals as [|a [|b [|c [|d [|e [|? ?]]]]]];
    first [apply H|apply class_blind_raise].
Qed.

Lemma class_blind_check_acl args kwargs :
  class_blind (AmazonS3._check_acl args kwargs).
Proof.
  apply class_blind_def1. intros a. unfold AmazonS3._check_acl_body.
  destruct (truthy a && negb (py_in a AmazonS3.VALID_ACL)); blind.
Qed.

Lemma class_blind_upload_from_local_file args kwargs :
  class_blind (AmazonS3.upload_from_local_file args kwargs).
Proof.
  apply class_blind_def5. intros.
  unfold AmazonS3.upload_from_local_file_body. blind.
Qed.

Lemma class_blind_upload_from_url args kwargs :
  class_blind (AmazonS3.upload_from_url args kwargs).
Proof.
  apply class_blind_def5. intros.
  unfold AmazonS3.upload_from_url_body. blind.
Qed.

Lemma class_blind_init args kwargs :
  class_blind (AmazonS3.__init__ args kwargs).
Proof.
  apply class_blind_def3. intros.
  unfold AmazonS3.__init___body. blind.
Qed.

Lemma set_class_set_class cls cls' s :
  set_class cls (set_class cls' s) = set_class cls s.
Proof. done. Qed.

(** Apart from [__init__], the subclass defines nothing of its own. *)
Lemma resolve_inherited name :
  name <> "__init__" ->
  resolve C_CloudflareR2 name = resolve C_AmazonS3 name.
Proof.
  intros Hn. unfold resolve, resolve_in, mro, own_methods.
  assert (E : String.eqb "__init__" name = false)
    by (apply String.eqb_neq; congruence).
  unfold assoc at 1. by rewrite E.
Qed.

(** Two runs of a class-blind computation on the same instance seen as a
    [CloudflareR2] and as an [AmazonS3]. *)
Lemma class_blind_twin {A : Type} (m : M A) X s :
  class_blind m ->
  m X (set_class C_CloudflareR2 s) =
  ((m X (set_class C_AmazonS3 s)).1,
   set_class C_CloudflareR2 (m X (set_class C_AmazonS3 s)).2).
Proof. intros Hm. by rewrite !Hm. Qed.

(** C7. A [CloudflareR2] behaves as the [AmazonS3] constructed from the
    same credentials and endpoint: construction makes the same outside call
    and fails with the same error or yields an instance with the same
    attributes, both classes have the same methods, and every method call
    gives the same result, the same error, the same outside calls and the
    same attributes afterwards. *)
Theorem CloudflareR2_behaves_as_AmazonS3 X t args kwargs k sk e :
  bind_args CloudflareR2.__init___sig args kwargs = inr [k; sk; e] ->
  let base := construct C_AmazonS3 args kwargs X t in
  construct C_CloudflareR2 args kwargs X t =
    (match base.1 with
     | inl x => inl x
     | inr o => inr (with_class C_CloudflareR2 o)
     end, base.2) /\
  (forall name,
     is_Some (resolve C_CloudflareR2 name) <->
     is_Some (resolve C_AmazonS3 name)) /\
  (forall name m_args m_kwargs s,
     (name = "__init__" ->
      exists vals,
        bind_args CloudflareR2.__init___sig m_args m_kwargs = inr vals) ->
     let base_run := invoke name m_args m_kwargs X (set_class C_AmazonS3 s) in
     invoke name m_args m_kwargs X (set_class C_CloudflareR2 s) =
       (base_run.1, set_class C_CloudflareR2 base_run.2)).
Proof.
  intros Hb base. subst base. split; [|split].
  - rewrite (construct_bound X C_CloudflareR2 t args kwargs k sk e Hb).
    rewrite (construct_bound X C_AmazonS3 t args kwargs k sk e
               (bind_args_undefaulted AmazonS3.__init___sig _ _ _ Hb)).
    simpl. by destruct (boto3_client X t "s3" k e sk).
  - intros name. destruct (String.eqb_spec name "__init__") as [->|Hn].
    + by rewrite !resolve_init.
    + by rewrite resolve_inherited.
  - intros name m_args m_kwargs s Hinit base_run. subst base_run.
    unfold invoke. simpl.
    destruct (String.eqb_spec name "__init__") as [->|Hn].
    + destruct (Hinit eq_refl) as [vals Hvals].
      pose proof (bind_args_length _ _ _ _ Hvals) as Hlen.
      destruct vals as [|a [|b [|c [|? ?]]]]; try discriminate.
      rewrite !resolve_init.
      unfold CloudflareR2.__init__, AmazonS3.__init__.
      rewrite (def3_bound _ _ _ _ _ _ _ Hvals).
      rewrite (def3_bound _ _ _ _ _ _ _
                 (bind_args_undefaulted AmazonS3.__init___sig _ _ _ Hvals)).
      unfold CloudflareR2.__init___body, mbind, M_bind.
      change (AmazonS3.__init__ [a; b; c] [])
        with (AmazonS3.__init___body a b c).
      rewrite (class_blind_twin (AmazonS3.__init___body a b c)).
      * rewrite init_run. simpl.
        by destruct (boto3_client X (trace s) "s3" a c b).
      * change (AmazonS3.__init___body a b c)
          with (AmazonS3.__init__ [a; b; c] []).
        apply class_blind_init.
    + rewrite (resolve_inherited _ Hn).
      destruct (resolve_cases C_AmazonS3 name) as [->|[E|[E|[E|E]]]];
        [done|rewrite E..].
      * done.
      * apply class_blind_twin, class_blind_check_acl.
      * apply class_blind_twin, class_blind_upload_from_local_file.
      * apply class_blind_twin, class_blind_upload_from_url.
Qed.

Lemma CloudflareR2_behaves_as_AmazonS3_witness :
  (construct C_CloudflareR2 [VStr "AKIA"; VStr "secret"]
     [("endpoint_url", VStr "https://acct.r2.cloudflarestorage.com")]
     Mock.world []).2 =
  [Boto3Client "s3" (VStr "AKIA")
     (VStr "https://acct.r2.cloudflarestorage.com") (VStr "secret")] /\
  invoke "upload_from_local_file"
    [VStr "/tmp/x.png"; VStr "mybucket"; VStr "x.png"] [] Mock.world
    (set_class C_CloudflareR2 Mock.fresh) =
  ((invoke "upload_from_local_file"
      [VStr "/tmp/x.png"; VStr "mybucket"; VStr "x.png"] [] Mock.world
      (set_class C_AmazonS3 Mock.fresh)).1,
   set_class C_CloudflareR2
     (invoke "upload_from_local_file"
        [VStr "/tmp/x.png"; VStr "mybucket"; VStr "x.png"] [] Mock.world
        (set_class C_AmazonS3 Mock.fresh)).2).
Proof.
  destruct (CloudflareR2_behaves_as_AmazonS3 Mock.world []
              [VStr "AKIA"; VStr "secret"]
              [("endpoint_url", VStr "https://acct.r2.cloudflarestorage.com")]
              (VStr "AKIA") (VStr "secret")
              (VStr "https://acct.r2.cloudflarestorage.com") eq_refl)
    as (Hnew & _ & Hcall).
  split.
  - rewrite Hnew. reflexivity.
  - apply Hcall. intros [=].
Defined.

(** ** Arguments left out *)

(** A keyword leaves the slots of the other names alone. *)
Lemma set_keyword_find_other k v n slots slots' :
  set_keyword k v slots = inr slots' ->
  k <> n ->
  find_slot n slots' = find_slot n slots.
Proof.
  intros H Hkn. revert slots' H.
  induction slots as [|[p o] rest IH]; intros slots'; simpl; [done|].
  destruct (String.eqb_spec (p_name p) k) as [Hpk|Hpk].
  - destruct o; [done|]. intros [= <-]. simpl.
    destruct (String.eqb_spec (p_name p) n); [congruence|done].
  - destruct (set_keyword k v rest) as [e|rest']; [done|].
    intros [= <-]. simpl.
    destruct (String.eqb (p_name p) n); [done|]. by apply IH.
Qed.

Lemma fill_keywords_find_other kwargs n slots slots' :
  fill_keywords kwargs slots = inr slots' ->
  n ∉ kwargs.*1 ->
  find_slot n slots' = find_slot n slots.
Proof.
  revert slots. induction kwargs as [|[k v] kwargs IH]; intros slots; simpl.
  - by intros [= <-].
  - destruct (set_keyword k v slots) as [e|slots1] eqn:E; [done|].
    intros H Hn. apply not_elem_of_cons in Hn as [Hk Hn].
    rewrite (IH _ H Hn). by eapply set_keyword_find_other.
Qed.

(** The parameters themselves stay as they are. *)
Lemma set_keyword_params k v slots slots' :
  set_keyword k v slots = inr slots' -> slots'.*1 = slots.*1.
Proof.
  revert slots'. induction slots as [|[p o] rest IH]; intros slots'; simpl;
    [done|].
  destruct (String.eqb (p_name p) k).
  - destruct o; [done|]. by intros [= <-].
  - destruct (set_keyword k v rest) as [e|rest']; [done|].
    intros [= <-]. simpl. f_equal. by apply IH.
Qed.

Lemma fill_keywords_params kwargs slots slots' :
  fill_keywords kwargs slots = inr slots' -> slots'.*1 = slots.*1.
Proof.
  revert slots. induction kwargs as [|[k v] kwargs IH]; intros slots; simpl.
  - by intros [= <-].
  - destruct (set_keyword k v slots) as [e|slots1] eqn:E; [done|].
    intros H. rewrite (IH _ H). by eapply set_keyword_params.
Qed.

Lemma fill_positional_params sig args :
  (fill_positional sig args).*1 = sig.
Proof.
  revert args. induction sig as [|p sig IH]; intros args; [done|].
  destruct args; simpl; by rewrite IH.
Qed.

(** Passing the default of a parameter that has no value yet changes
    neither the values bound nor what is missing. *)
Lemma set_keyword_default n d p slots :
  find_slot n slots = Some (p, None) ->
  p_default p = Some d ->
  exists slots',
    set_keyword n d slots = inr slots' /\
    missing slots' = missing slots /\
    fill_defaults slots' = fill_defaults slots.
Proof.
  intros Hfind Hd. induction slots as [|[q o] rest IH]; simpl in *; [done|].
  destruct (String.eqb (p_name q) n).
  - injection Hfind as -> ->. eexists. split; [done|]. simpl. by rewrite Hd.
  - destruct (IH Hfind) as (rest' & -> & Hm & Hf).
    eexists. split; [done|]. simpl. by rewrite Hm, Hf.
Qed.

Lemma fill_keywords_app (kwargs kwargs' : list (string * pyval)) slots :
  fill_keywords (kwargs ++ kwargs')%list slots =
  match fill_keywords kwargs slots with
  | inl e => inl e
  | inr slots' => fill_keywords kwargs' slots'
  end.
Proof.
  revert slots. induction kwargs as [|[k v] kwargs IH]; intros slots; simpl;
    [done|].
  destruct (set_keyword k v slots); [done|]. apply IH.
Qed.

Lemma bind_args_default_explicit sig args kwargs n d p :
  find_slot n (fill_positional sig args) = Some (p, None) ->
  p_default p = Some d ->
  n ∉ kwargs.*1 ->
  bind_args sig args (kwargs ++ [(n, d)])%list = bind_args sig args kwargs.
Proof.
  intros Hfind Hd Hn. unfold bind_args. rewrite fill_keywords_app.
  destruct (fill_keywords kwargs (fill_positional sig args))
    as [e|slots] eqn:E; [done|].
  rewrite <- (fill_keywords_find_other _ _ _ _ E Hn) in Hfind.
  destruct (set_keyword_default n d p slots Hfind Hd)
    as (slots' & Hset & Hm & Hf).
  simpl. by rewrite Hset, Hm, Hf.
Qed.

(** C10. In both uploads, leaving [acl] out is the same as passing
    ["public-read"], and leaving [bucket_domain] out is the same as passing
    the empty string: the call with the default written out is the same
    computation, hence makes the same SDK call and returns the same URL. *)
Theorem omitted_arguments_take_defaults
    (args : list pyval) (kwargs : list (string * pyval)) :
  (length args <= 3 -> "acl" ∉ kwargs.*1 ->
   AmazonS3.upload_from_local_file args
     (kwargs ++ [("acl", VStr "public-read")])%list =
     AmazonS3.upload_from_local_file args kwargs /\
   AmazonS3.upload_from_url args
     (kwargs ++ [("acl", VStr "public-read")])%list =
     AmazonS3.upload_from_url args kwargs) /\
  (length args <= 4 -> "bucket_domain" ∉ kwargs.*1 ->
   AmazonS3.upload_from_local_file args
     (kwargs ++ [("bucket_domain", VStr "")])%list =
     AmazonS3.upload_from_local_file args kwargs /\
   AmazonS3.upload_from_url args
     (kwargs ++ [("bucket_domain", VStr "")])%list =
     AmazonS3.upload_from_url args kwargs) /\
  (forall src bucket_name object_name,
     AmazonS3.upload_from_local_file [src; bucket_name; object_name] [] =
     AmazonS3.upload_from_local_file
       [src; bucket_name; object_name; VStr "public-read"; VStr ""] [] /\
     AmazonS3.upload_from_url [src; bucket_name; object_name] [] =
     AmazonS3.upload_from_url
       [src; bucket_name; object_name; VStr "public-read"; VStr ""] []).
Proof.
  split; [|split].
  - intros Hlen Hn.
    unfold AmazonS3.upload_from_local_file, AmazonS3.upload_from_url, def5.
    rewrite !(bind_args_default_explicit _ args kwargs "acl"
                (VStr "public-read") (optional "acl" (VStr "public-read")));
      try done;
      destruct args as [|a [|b [|c [|d ?]]]]; try done; simpl in Hlen; lia.
  - intros Hlen Hn.
    unfold AmazonS3.upload_from_local_file, AmazonS3.upload_from_url, def5.
    rewrite !(bind_args_default_explicit _ args kwargs "bucket_domain"
                (VStr "") (optional "bucket_domain" (VStr "")));
      try done;
      destruct args as [|a [|b [|c [|d [|e ?]]]]]; try done;
      simpl in Hlen; lia.
  - done.
Qed.

Lemma omitted_arguments_take_defaults_witness :
  AmazonS3.upload_from_url
    [VStr "https://example.com/cat.png"; VStr "mybucket"]
    ([("object_name", VStr "cat.png")] ++ [("acl", VStr "public-read")])%list =
  AmazonS3.upload_from_url
    [VStr "https://example.com/cat.png"; VStr "mybucket"]
    [("object_name", VStr "cat.png")].
Proof.
  destruct (omitted_arguments_take_defaults
              [VStr "https://example.com/cat.png"; VStr "mybucket"]
              [("object_name", VStr "cat.png")]) as (Hacl & _ & _).
  apply Hacl.
  - simpl. lia.
  - simpl. rewrite list_elem_of_singleton. discriminate.
Defined.

(** ** The endpoint *)

(** What binding does when a call gives the two credentials and no
    endpoint. *)
Lemma bind_args_without_endpoint args kwargs k sk e :
  length args <= 2 ->
  "endpoint_url" ∉ kwargs.*1 ->
  bind_args AmazonS3.__init___sig args kwargs = inr [k; sk; e] ->
  e = VNone /\
  bind_args CloudflareR2.__init___sig args kwargs =
    inl (MissingRequired ["endpoint_url"]).
Proof.
  intros Hlen Hn Hb.
  change CloudflareR2.__init___sig
    with (map undefaulted AmazonS3.__init___sig).
  unfold bind_args in *.
  rewrite fill_positional_map, fill_keywords_map by done.
  rewrite length_map.
  destruct (fill_keywords kwargs (fill_positional AmazonS3.__init___sig args))
    as [err|slots] eqn:E; [done|].
  pose proof (fill_keywords_params _ _ _ E) as Hparams.
  rewrite fill_positional_params in Hparams.
  pose proof (fill_keywords_find_other _ "endpoint_url" _ _ E Hn) as Hfind.
  assert (Hpos : find_slot "endpoint_url"
                   (fill_positional AmazonS3.__init___sig args) =
                 Some (optional "endpoint_url" VNone, None)).
  { destruct args as [|a [|b [|c ?]]]; try done. simpl in Hlen. lia. }
  rewrite Hpos in Hfind.
  destruct slots as [|[p1 o1] [|[p2 o2] [|[p3 o3] [|? ?]]]]; try done.
  injection Hparams as -> -> ->. simpl in Hfind.
  injection Hfind as ->.
  destruct (Nat.ltb _ _); [done|].
  simpl in Hb |- *.
  destruct o1 as [v1|], o2 as [v2|]; try done.
  by injection Hb as _ _ <-.
Qed.

(** C6. A call that gives [CloudflareR2] the credentials and no endpoint
    fails, before anything else happens, because [endpoint_url] is
    required; the same call to [AmazonS3] goes through with [None] for the
    endpoint, and returns the instance as soon as [boto3.client] returns
    the client. *)
Theorem endpoint_required_only_by_CloudflareR2 X t args kwargs k sk e :
  length args <= 2 ->
  "endpoint_url" ∉ kwargs.*1 ->
  bind_args AmazonS3.__init___sig args kwargs = inr [k; sk; e] ->
  e = VNone /\
  construct C_CloudflareR2 args kwargs X t =
    (inl (TypeError (MissingRequired ["endpoint_url"])), t) /\
  construct C_AmazonS3 args kwargs X t =
    (match boto3_client X t "s3" k VNone sk with
     | inl x => inl x
     | inr c => inr (instance C_AmazonS3 k sk c)
     end,
     (t ++ [Boto3Client "s3" k VNone sk])%list).
Proof.
  intros Hlen Hn Hb.
  destruct (bind_args_without_endpoint _ _ _ _ _ Hlen Hn Hb) as [-> HR2].
  split; [done|]. split.
  - by apply construct_unbound.
  - by apply construct_bound.
Qed.

Lemma endpoint_required_only_by_CloudflareR2_witness :
  construct C_CloudflareR2 [VStr "AKIA"; VStr "secret"] [] Mock.world [] =
    (inl (TypeError (MissingRequired ["endpoint_url"])), []) /\
  construct C_AmazonS3 [VStr "AKIA"; VStr "secret"] [] Mock.world [] =
    (inr (instance C_AmazonS3 (VStr "AKIA") (VStr "secret") (RawClient 0)),
     [Boto3Client "s3" (VStr "AKIA") VNone (VStr "secret")]).
Proof.
  destruct (endpoint_required_only_by_CloudflareR2 Mock.world []
              [VStr "AKIA"; VStr "secret"] [] (VStr "AKIA") (VStr "secret")
              VNone) as (_ & HR2 & HS3).
  - simpl. lia.
  - apply not_elem_of_nil.
  - reflexivity.
  - split; [exact HR2|exact HS3].
Defined.

(** * Further properties *)

(** ** The shape of an instance *)

Lemma instance_reinit cls k sk c k' sk' :
  <["aws_secret_access_key" := Val sk']>
    (<["aws_access_key_id" := Val k']> (ob_dict (instance cls k sk c))) =
  ob_dict (instance cls k' sk' c).
Proof.
  unfold instance. simpl. apply map_eq. intros i.
  destruct (decide (i = "aws_secret_access_key")) as [->|H1];
    [by simplify_map_eq|].
  destruct (decide (i = "aws_access_key_id")) as [->|H2];
    [by simplify_map_eq|].
  destruct (decide (i = "s3_raw_client")) as [->|H3];
    by simplify_map_eq.
Qed.

Lemma instance_new_client cls k sk c c' :
  <["s3_raw_client" := Client c']> (ob_dict (instance cls k sk c)) =
  ob_dict (instance cls k sk c').
Proof. unfold instance. simpl. by rewrite insert_insert_eq. Qed.

(** [__init__], run again on an instance, leaves an instance. *)
Lemma init_body_shape X a b e s k sk c :
  self s = instance (ob_class (self s)) k sk c ->
  exists k' sk' c',
    self (AmazonS3.__init___body a b e X s).2 =
    instance (ob_class (self s)) k' sk' c'.
Proof.
  intros Hs. rewrite init_run. cbv zeta.
  assert (Hd : ob_dict (self s) =
               ob_dict (instance (ob_class (self s)) k sk c))
    by by rewrite <- Hs.
  rewrite Hd, instance_reinit.
  destruct (boto3_client X (trace s) "s3" a e b) as [x|c']; cbn [snd self].
  - by exists a, b, c.
  - exists a, b, c'. by rewrite instance_new_client.
Qed.

Lemma invoke_shape X name args kwargs s k sk c :
  self s = instance (ob_class (self s)) k sk c ->
  exists k' sk' c',
    self (invoke name args kwargs X s).2 =
    instance (ob_class (self s)) k' sk' c'.
Proof.
  intros Hs. unfold invoke.
  destruct (resolve_cases (ob_class (self s)) name) as [->|[E|[E|[E|E]]]].
  - rewrite resolve_init. destruct (ob_class (self s)) eqn:Hcls.
    + unfold AmazonS3.__init__, def3.
      destruct (bind_args _ args kwargs) as [err|vals]; [by exists k, sk, c|].
      destruct vals as [|a [|b [|e [|? ?]]]]; try by exists k, sk, c.
      rewrite <- Hcls. apply (init_body_shape X a b e s k sk c).
      by rewrite Hcls.
    + unfold CloudflareR2.__init__, def3.
      destruct (bind_args _ args kwargs) as [err|vals]; [by exists k, sk, c|].
      destruct vals as [|a [|b [|e [|? ?]]]]; try by exists k, sk, c.
      unfold CloudflareR2.__init___body, mbind, M_bind.
      change (AmazonS3.__init__ [a; b; e] [])
        with (AmazonS3.__init___body a b e).
      destruct (init_body_shape X a b e s k sk c) as (k' & sk' & c' & H);
        [by rewrite Hcls|].
      rewrite Hcls in H. exists k', sk', c'.
      by destruct (AmazonS3.__init___body a b e X s) as [[x|v] s1].
  - rewrite E. by exists k, sk, c.
  - rewrite E, check_acl_self. by exists k, sk, c.
  - rewrite E, upload_from_local_file_self. by exists k, sk, c.
  - rewrite E, upload_from_url_self. by exists k, sk, c.
Qed.

Lemma invoke_class X name args kwargs s :
  ob_class (self (invoke name args kwargs X s).2) = ob_class (self s).
Proof.
  unfold invoke.
  destruct (resolve_cases (ob_class (self s)) name) as [->|[E|[E|[E|E]]]].
  - rewrite resolve_init. destruct (ob_class (self s)) eqn:Hcls.
    + unfold AmazonS3.__init__, def3.
      destruct (bind_args _ args kwargs) as [err|vals]; [done|].
      destruct vals as [|a [|b [|e [|? ?]]]]; try done.
      rewrite init_run. simpl.
      by destruct (boto3_client X (trace s) "s3" a e b).
    + unfold CloudflareR2.__init__, def3.
      destruct (bind_args _ args kwargs) as [err|vals]; [done|].
      destruct vals as [|a [|b [|e [|? ?]]]]; try done.
      unfold CloudflareR2.__init___body, mbind, M_bind.
      change (AmazonS3.__init__ [a; b; e] [])
        with (AmazonS3.__init___body a b e).
      rewrite init_run. simpl.
      by destruct (boto3_client X (trace s) "s3" a e b).
  - by rewrite E.
  - by rewrite E, check_acl_self.
  - by rewrite E, upload_from_local_file_self.
  - by rewrite E, upload_from_url_self.
Qed.

(** X1. An instance that came out of a constructor and was used since then
    only through the methods the module defines has exactly three
    attributes: the two credentials, which are values, and [s3_raw_client],
    which is a client.  This also holds after [__init__] was called again,
    whether that call returned or raised. *)
Theorem defined_use_keeps_shape X s :
  used_as_defined X s ->
  exists k sk c,
    self s = instance (ob_class (self s)) k sk c /\
    dom (ob_dict (self s)) =
      ({["aws_access_key_id"; "aws_secret_access_key"; "s3_raw_client"]}
         : gset string).
Proof.
  intros Hused.
  assert (Hshape : exists k sk c, self s = instance (ob_class (self s)) k sk c).
  { induction Hused as [cls args kwargs t o t' H|s name args kwargs _ IH _
                       |s ev _ IH].
    - destruct (construct_cases cls args kwargs)
        as [[why Hb]|(k & sk & e & Hb)].
      + by rewrite (construct_unbound _ _ _ _ _ _ Hb) in H.
      + rewrite (construct_bound _ _ _ _ _ _ _ _ Hb) in H.
        destruct (boto3_client X t "s3" k e sk) as [x|c]; [done|].
        injection H as <- _. by exists k, sk, c.
    - destruct IH as (k & sk & c & IH).
      rewrite invoke_class. by eapply invoke_shape.
    - done. }
  destruct Hshape as (k & sk & c & Hs). exists k, sk, c. split; [done|].
  rewrite Hs. unfold instance. simpl. rewrite !dom_insert_L, dom_empty_L.
  set_solver.
Qed.

Lemma defined_use_keeps_shape_witness :
  let s :=
    (invoke "__init__" [VStr "NEWKEY"; VStr "newsecret"]
       [("endpoint_url", VStr "not a url")] Strict.world Strict.fresh).2 in
  exists k sk c,
    self s = instance (ob_class (self s)) k sk c /\
    dom (ob_dict (self s)) =
      ({["aws_access_key_id"; "aws_secret_access_key"; "s3_raw_client"]}
         : gset string).
Proof.
  apply (defined_use_keeps_shape Strict.world).
  apply used_invoke.
  - refine (used_construct Strict.world C_AmazonS3
              [VStr "AKIA"; VStr "secret"] [] [] _ _ _).
    vm_compute. reflexivity.
  - unfold defined_methods. rewrite !elem_of_cons. tauto.
Defined.

(** ** A lifetime of operations *)

(** X2. The credentials given to the constructor are the ones the instance
    holds after any sequence of uploads and ACL checks, whichever of them
    returned or raised. *)
Theorem credentials_for_life X cls t args kwargs k sk e o t' calls :
  bind_args (init_sig cls) args kwargs = inr [k; sk; e] ->
  construct cls args kwargs X t = (inr o, t') ->
  Forall (fun c : call => c.1.1 ∈ operations) calls ->
  let s := after_calls calls X {| self := o; trace := t' |} in
  ob_dict (self s) !! "aws_access_key_id" = Some (Val k) /\
  ob_dict (self s) !! "aws_secret_access_key" = Some (Val sk).
Proof.
  intros Hb Hnew Hcalls s. subst s. rewrite after_calls_self by done.
  by eapply construct_stores_credentials.
Qed.

Lemma credentials_for_life_witness :
  let s :=
    after_calls
      [("upload_from_url",
        [VStr "https://example.com/gone"; VStr "b"; VStr "k"], []);
       ("_check_acl", [VStr "bogus"], []);
       ("upload_from_local_file", [VStr "/tmp/x.png"; VStr "forbidden"],
        [("object_name", VStr "x.png")])]
      Mock.world Mock.fresh in
  ob_dict (self s) !! "aws_access_key_id" = Some (Val (VStr "AKIA")) /\
  ob_dict (self s) !! "aws_secret_access_key" = Some (Val (VStr "secret")).
Proof.
  apply (credentials_for_life Mock.world C_AmazonS3 []
           [VStr "AKIA"; VStr "secret"] [] (VStr "AKIA") (VStr "secret")
           VNone (self Mock.fresh) (trace Mock.fresh)).
  - reflexivity.
  - vm_compute. reflexivity.
  - repeat constructor; unfold operations; simpl; rewrite !elem_of_cons;
      tauto.
Defined.

(** The outside calls of one operation on an instance whose client is
    [c]. *)
Lemma operation_events X s c name args kwargs :
  has_client s c ->
  name ∈ operations ->
  exists evs,
    trace (invoke name args kwargs X s).2 = (trace s ++ evs)%list /\
    Forall (uses_client c) evs.
Proof.
  intros Hc Hname. unfold has_client in Hc. unfold invoke.
  destruct (resolve_cases (ob_class (self s)) name) as [->|[E|[E|[E|E]]]].
  - exfalso. unfold operations in Hname. rewrite !elem_of_cons in Hname.
    destruct Hname as [?|[?|[?|H]]]; try discriminate.
    by apply elem_of_nil in H.
  - rewrite E. exists []. by rewrite app_nil_r.
  - rewrite E. exists []. rewrite app_nil_r. split; [|done].
    unfold AmazonS3._check_acl, def1.
    destruct (bind_args _ args kwargs) as [err|vals]; [done|].
    destruct vals as [|a [|? ?]]; try done. by rewrite check_acl_run.
  - rewrite E. unfold AmazonS3.upload_from_local_file, def5.
    destruct (bind_args _ args kwargs) as [err|vals];
      [exists []; by rewrite app_nil_r|].
    destruct vals as [|a [|b [|k [|d [|e [|? ?]]]]]];
      try (exists []; by rewrite app_nil_r).
    rewrite upload_from_local_file_run, Hc. eexists. split; [done|].
    by repeat constructor.
  - rewrite E. unfold AmazonS3.upload_from_url, def5.
    destruct (bind_args _ args kwargs) as [err|vals];
      [exists []; by rewrite app_nil_r|].
    destruct vals as [|a [|b [|k [|d [|e [|? ?]]]]]];
      try (exists []; by rewrite app_nil_r).
    rewrite upload_from_url_run. cbv zeta.
    destruct (requests_get X (trace s) a) as [x|resp];
      [eexists; split; [done|by repeat constructor]|].
    destruct (raise_for_status X resp);
      [eexists; split; [done|by repeat constructor]|].
    rewrite Hc. eexists. split; [done|]. by repeat constructor.
Qed.

Lemma after_calls_events X calls s c :
  has_client s c ->
  Forall (fun c : call => c.1.1 ∈ operations) calls ->
  exists evs,
    trace (after_calls calls X s) = (trace s ++ evs)%list /\
    Forall (uses_client c) evs.
Proof.
  intros Hc Hcalls. revert s Hc.
  induction Hcalls as [|[[name args] kwargs] calls Hname _ IH]; intros s Hc;
    simpl.
  - exists []. by rewrite app_nil_r.
  - destruct (operation_events X s c name args kwargs Hc Hname)
      as (evs1 & Ht1 & Hev1).
    destruct (IH (invoke name args kwargs X s).2) as (evs2 & Ht2 & Hev2).
    { unfold has_client. by rewrite operation_keeps_self. }
    exists (evs1 ++ evs2)%list. split.
    + by rewrite Ht2, Ht1, app_assoc.
    + by apply Forall_app.
Qed.

(** X3. All transfers of an instance go through the one client it holds:
    over any sequence of uploads and ACL checks, every [upload_file] and
    [put_object] call is made on that client, and [boto3.client] is not
    called again. *)
Theorem operations_reuse_client X s c calls :
  has_client s c ->
  Forall (fun c : call => c.1.1 ∈ operations) calls ->
  Forall (uses_client c)
    (drop (length (trace s)) (trace (after_calls calls X s))).
Proof.
  intros Hc Hcalls.
  destruct (after_calls_events X calls s c Hc Hcalls) as (evs & -> & Hevs).
  by rewrite drop_app_length.
Qed.

Lemma operations_reuse_client_witness :
  Forall (uses_client (RawClient 0))
    (drop (length (trace Mock.fresh))
       (trace
          (after_calls
             [("upload_from_url",
               [VStr "https://example.com/cat.png"; VStr "b"; VStr "k"], []);
              ("upload_from_local_file",
               [VStr "/tmp/x.png"; VStr "b"; VStr "k2"], [])]
             Mock.world Mock.fresh))).
Proof.
  apply (operations_reuse_client Mock.world Mock.fresh (RawClient 0)).
  - vm_compute. reflexivity.
  - repeat constructor; unfold operations; simpl; rewrite !elem_of_cons;
      tauto.
Defined.

(** ** Initialising again *)

(** X4. [__init__] stores the credentials before it asks for the client.
    So when it is called on an instance that already has a client and
    [boto3.client] raises, the error reaches the caller, the instance holds
    the new credentials, and its client is still the old one. *)
Theorem failed_reinit_keeps_old_client X s c args kwargs k sk e x :
  has_client s c ->
  bind_args (init_sig (ob_class (self s))) args kwargs = inr [k; sk; e] ->
  boto3_client X (trace s) "s3" k e sk = inl x ->
  let run := invoke "__init__" args kwargs X s in
  raises run x /\
  ob_dict (self run.2) !! "aws_access_key_id" = Some (Val k) /\
  ob_dict (self run.2) !! "aws_secret_access_key" = Some (Val sk) /\
  has_client run.2 c.
Proof.
  intros Hc Hb Hx run. subst run. unfold has_client in *.
  unfold invoke. rewrite resolve_init.
  assert (Hbody :
    AmazonS3.__init___body k sk e X s =
    (inl x,
     {| self := {| ob_class := ob_class (self s);
                   ob_dict :=
                     <["aws_secret_access_key" := Val sk]>
                       (<["aws_access_key_id" := Val k]>
                          (ob_dict (self s))) |};
        trace := (trace s ++ [Boto3Client "s3" k e sk])%list |})).
  { rewrite init_run. cbv zeta. by rewrite Hx. }
  destruct (ob_class (self s)); simpl in Hb.
  - unfold AmazonS3.__init__. rewrite (def3_bound _ _ _ _ _ _ _ Hb), Hbody.
    unfold raises. simpl. by simplify_map_eq.
  - unfold CloudflareR2.__init__. rewrite (def3_bound _ _ _ _ _ _ _ Hb).
    unfold CloudflareR2.__init___body, mbind, M_bind.
    change (AmazonS3.__init__ [k; sk; e] [])
      with (AmazonS3.__init___body k sk e).
    rewrite Hbody. unfold raises. simpl. by simplify_map_eq.
Qed.

Lemma failed_reinit_keeps_old_client_witness :
  let run :=
    invoke "__init__" [VStr "NEWKEY"; VStr "newsecret"]
      [("endpoint_url", VStr "not a url")] Strict.world Strict.fresh in
  raises run (ValueError "Invalid endpoint: not a url") /\
  ob_dict (self run.2) !! "aws_access_key_id" = Some (Val (VStr "NEWKEY")) /\
  ob_dict (self run.2) !! "aws_secret_access_key" =
    Some (Val (VStr "newsecret")) /\
  has_client run.2 (RawClient 0).
Proof.
  apply (failed_reinit_keeps_old_client Strict.world Strict.fresh
           (RawClient 0) [VStr "NEWKEY"; VStr "newsecret"]
           [("endpoint_url", VStr "not a url")] (VStr "NEWKEY")
           (VStr "newsecret") (VStr "not a url")
           (ValueError "Invalid endpoint: not a url")).
  - vm_compute. reflexivity.
  - reflexivity.
  - reflexivity.
Defined.

(** ** How many arguments a call takes *)

Lemma fill_positional_filled sig args :
  filled (fill_positional sig args) = Nat.min (length args) (length sig).
Proof.
  revert args. induction sig as [|p sig IH]; intros args; simpl.
  - by rewrite Nat.min_0_r.
  - destruct args as [|a args]; simpl.
    + clear IH. induction sig as [|q sig IH]; simpl; [done|apply IH].
    + by rewrite IH.
Qed.

Lemma set_keyword_filled k v slots slots' :
  set_keyword k v slots = inr slots' -> filled slots' = S (filled slots).
Proof.
  revert slots'. induction slots as [|[p o] rest IH]; intros slots'; simpl;
    [done|].
  destruct (String.eqb (p_name p) k).
  - destruct o; [done|]. by intros [= <-].
  - destruct (set_keyword k v rest) as [e|rest']; [done|].
    intros [= <-]. simpl. rewrite (IH rest' eq_refl). by destruct o.
Qed.

Lemma fill_keywords_filled kwargs slots slots' :
  fill_keywords kwargs slots = inr slots' ->
  filled slots' = filled slots + length kwargs.
Proof.
  revert slots. induction kwargs as [|[k v] kwargs IH]; intros slots; simpl.
  - intros [= <-]. lia.
  - destruct (set_keyword k v slots) as [e|slots1] eqn:E; [done|].
    intros H. rewrite (IH _ H), (set_keyword_filled _ _ _ _ E). lia.
Qed.

Lemma filled_le_length slots : filled slots <= length slots.
Proof.
  induction slots as [|[p [v|]] rest IH]; simpl; lia.
Qed.

Lemma required_are_filled slots :
  missing slots = [] -> required_count slots.*1 <= filled slots.
Proof.
  induction slots as [|[p [v|]] rest IH]; [done| |];
    rewrite fmap_cons; cbn [required_count missing filled fst].
  - intros H. specialize (IH H). destruct (p_default p); lia.
  - destruct (p_default p); [|done]. intros H. by apply IH.
Qed.

(** A call binds only if it gives at least as many arguments as there are
    parameters without a default, and at most as many as there are
    parameters. *)
Lemma bind_args_arity sig args kwargs vals :
  bind_args sig args kwargs = inr vals ->
  required_count sig <= length args + length kwargs <= length sig.
Proof.
  unfold bind_args.
  destruct (fill_keywords kwargs (fill_positional sig args))
    as [err|slots] eqn:E; [done|].
  destruct (Nat.ltb_spec (length sig) (length args)) as [|Hle]; [done|].
  destruct (missing slots) eqn:Hm; [|done]. intros _.
  pose proof (fill_keywords_filled _ _ _ E) as Hf.
  rewrite fill_positional_filled, Nat.min_l in Hf by done.
  pose proof (filled_le_length slots) as Hlen.
  rewrite (fill_keywords_length _ _ _ E), fill_positional_length in Hlen.
  pose proof (required_are_filled _ Hm) as Hreq.
  rewrite (fill_keywords_params _ _ _ E), fill_positional_params in Hreq.
  lia.
Qed.

(** X5. An upload takes its source, the bucket and the key, and at most two
    more arguments; [_check_acl] takes exactly one.  Any other number of
    arguments, positional and keyword together, is a [TypeError], raised
    before any outside call and with the instance untouched. *)
Theorem operations_arity X s args (kwargs : list (string * pyval)) :
  let n := length args + length kwargs in
  (n < 3 \/ 5 < n ->
   (exists why,
      AmazonS3.upload_from_local_file args kwargs X s =
      (inl (TypeError why), s)) /\
   (exists why,
      AmazonS3.upload_from_url args kwargs X s =
      (inl (TypeError why), s))) /\
  (n <> 1 ->
   exists why,
     AmazonS3._check_acl args kwargs X s = (inl (TypeError why), s)).
Proof.
  intros n. subst n. split.
  - intros Hn.
    unfold AmazonS3.upload_from_local_file, AmazonS3.upload_from_url, def5.
    split.
    + destruct (bind_args AmazonS3.upload_from_local_file_sig args kwargs)
        as [why|vals] eqn:Hb; [by exists why|].
      apply bind_args_arity in Hb. simpl in Hb. lia.
    + destruct (bind_args AmazonS3.upload_from_url_sig args kwargs)
        as [why|vals] eqn:Hb; [by exists why|].
      apply bind_args_arity in Hb. simpl in Hb. lia.
  - intros Hn. unfold AmazonS3._check_acl, def1.
    destruct (bind_args AmazonS3._check_acl_sig args kwargs)
      as [why|vals] eqn:Hb; [by exists why|].
    apply bind_args_arity in Hb. simpl in Hb. lia.
Qed.

Lemma operations_arity_witness :
  exists why,
    AmazonS3.upload_from_url [VStr "https://example.com/cat.png"]
      [("bucket_name", VStr "mybucket")] Mock.world Mock.fresh =
    (inl (TypeError why), Mock.fresh).
Proof.
  destruct (operations_arity Mock.world Mock.fresh
              [VStr "https://example.com/cat.png"]
              [("bucket_name", VStr "mybucket")]) as [Hupload _].
  apply Hupload. left. simpl. lia.
Defined.

(** X6. [AmazonS3] is constructed from two or three arguments and
    [CloudflareR2] from exactly three; with any other number construction
    raises a [TypeError] and [boto3.client] is not called. *)
Theorem constructors_arity X t args (kwargs : list (string * pyval)) :
  let n := length args + length kwargs in
  (n < 2 \/ 3 < n ->
   exists why,
     construct C_AmazonS3 args kwargs X t = (inl (TypeError why), t)) /\
  (n <> 3 ->
   exists why,
     construct C_CloudflareR2 args kwargs X t = (inl (TypeError why), t)).
Proof.
  intros n. subst n. split; intros Hn.
  - destruct (construct_cases C_AmazonS3 args kwargs)
      as [[why Hb]|(k & sk & e & Hb)].
    + exists why. by apply construct_unbound.
    + apply bind_args_arity in Hb. simpl in Hb. lia.
  - destruct (construct_cases C_CloudflareR2 args kwargs)
      as [[why Hb]|(k & sk & e & Hb)].
    + exists why. by apply construct_unbound.
    + apply bind_args_arity in Hb. simpl in Hb. lia.
Qed.

Lemma constructors_arity_witness :
  exists why,
    construct C_CloudflareR2 []
      [("aws_access_key_id", VStr "AKIA");
       ("aws_secret_access_key", VStr "secret")] Mock.world [] =
    (inl (TypeError why), []).
Proof.
  destruct (constructors_arity Mock.world [] []
              [("aws_access_key_id", VStr "AKIA");
               ("aws_secret_access_key", VStr "secret")]) as [_ HR2].
  apply HR2. simpl. lia.
Defined.

(** ** What an operation reads *)




(** ** What [bucket_domain] is for *)

(** X8. [bucket_domain] goes into the returned string and nowhere else: two
    uploads that differ only in it make the same outside calls, leave the
    same state and raise the same errors; when they return, each returns
    the URL for its own domain. *)
Theorem bucket_domain_only_shapes_the_url
    X s args1 kwargs1 args2 kwargs2 src bucket_name object_name acl
    bucket_domain1 bucket_domain2 :
  (bind_args AmazonS3.upload_from_local_file_sig args1 kwargs1 =
     inr [src; bucket_name; object_name; acl; bucket_domain1] ->
   bind_args AmazonS3.upload_from_local_file_sig args2 kwargs2 =
     inr [src; bucket_name; object_name; acl; bucket_domain2] ->
   let run1 := AmazonS3.upload_from_local_file args1 kwargs1 X s in
   let run2 := AmazonS3.upload_from_local_file args2 kwargs2 X s in
   run1.2 = run2.2 /\
   (forall e, raises run1 e <-> raises run2 e) /\
   (forall r, returns run1 r ->
      r = AmazonS3.public_url bucket_name object_name bucket_domain1 /\
      returns run2
        (AmazonS3.public_url bucket_name object_name bucket_domain2))) /\
  (bind_args AmazonS3.upload_from_url_sig args1 kwargs1 =
     inr [src; bucket_name; object_name; acl; bucket_domain1] ->
   bind_args AmazonS3.upload_from_url_sig args2 kwargs2 =
     inr [src; bucket_name; object_name; acl; bucket_domain2] ->
   let run1 := AmazonS3.upload_from_url args1 kwargs1 X s in
   let run2 := AmazonS3.upload_from_url args2 kwargs2 X s in
   run1.2 = run2.2 /\
   (forall e, raises run1 e <-> raises run2 e) /\
   (forall r, returns run1 r ->
      r = AmazonS3.public_url bucket_name object_name bucket_domain1 /\
      returns run2
        (AmazonS3.public_url bucket_name object_name bucket_domain2))).
Proof.
  split; intros Hb1 Hb2 run1 run2; subst run1 run2;
    unfold AmazonS3.upload_from_local_file, AmazonS3.upload_from_url;
    rewrite (def5_bound _ _ _ _ _ _ _ _ _ Hb1),
      (def5_bound _ _ _ _ _ _ _ _ _ Hb2);
    unfold returns, raises.
  - rewrite !upload_from_local_file_run.
    destruct (ob_dict (self s) !! "s3_raw_client") as [[v|c]|];
      try by repeat split.
    simpl. destruct (client_upload_file _ _ _ _ _ _ _);
      repeat split; intros; congruence.
  - rewrite !upload_from_url_run. cbv zeta.
    destruct (requests_get X (trace s) src) as [x|resp];
      [by repeat split|].
    destruct (raise_for_status X resp); [by repeat split|].
    destruct (ob_dict (self s) !! "s3_raw_client") as [[v|c]|];
      try by repeat split.
    simpl. destruct (client_put_object _ _ _ _ _ _ _);
      repeat split; intros; congruence.
Qed.

Lemma bucket_domain_only_shapes_the_url_witness :
  let run1 :=
    AmazonS3.upload_from_local_file
      [VStr "/tmp/x.png"; VStr "mybucket"; VStr "x.png"] [] Mock.world
      Mock.fresh in
  let run2 :=
    AmazonS3.upload_from_local_file
      [VStr "/tmp/x.png"; VStr "mybucket"; VStr "x.png"]
      [("bucket_domain", VStr "cdn.example.com")] Mock.world Mock.fresh in
  run1.2 = run2.2 /\
  (forall e, raises run1 e <-> raises run2 e) /\
  (forall r, returns run1 r ->
     r = AmazonS3.public_url (VStr "mybucket") (VStr "x.png") (VStr "") /\
     returns run2
       (AmazonS3.public_url (VStr "mybucket") (VStr "x.png")
          (VStr "cdn.example.com"))).
Proof.
  destruct (bucket_domain_only_shapes_the_url Mock.world Mock.fresh
              [VStr "/tmp/x.png"; VStr "mybucket"; VStr "x.png"] []
              [VStr "/tmp/x.png"; VStr "mybucket"; VStr "x.png"]
              [("bucket_domain", VStr "cdn.example.com")]
              (VStr "/tmp/x.png") (VStr "mybucket") (VStr "x.png")
              (VStr "public-read") (VStr "") (VStr "cdn.example.com"))
    as [Hlocal _].
  apply Hlocal; reflexivity.
Defined.

(** ** The endpoint is not checked *)

(** X9. [CloudflareR2] requires the endpoint argument but accepts any value
    for it: given [None], positionally or by keyword, it asks [boto3] for
    the same client as [AmazonS3] called without an endpoint, and ends up
    with the same attributes or the same error. *)
Theorem CloudflareR2_accepts_None_endpoint X t k sk :
  let base := construct C_AmazonS3 [k; sk] [] X t in
  let same :=
    (match base.1 with
     | inl x => inl x
     | inr o => inr (with_class C_CloudflareR2 o)
     end, base.2) in
  construct C_CloudflareR2 [k; sk; VNone] [] X t = same /\
  construct C_CloudflareR2 [k; sk] [("endpoint_url", VNone)] X t = same.
Proof.
  intros base same. subst base same.
  rewrite (construct_bound X C_AmazonS3 t [k; sk] [] k sk VNone eq_refl).
  rewrite (construct_bound X C_CloudflareR2 t [k; sk; VNone] [] k sk VNone
             eq_refl).
  rewrite (construct_bound X C_CloudflareR2 t [k; sk]
             [("endpoint_url", VNone)] k sk VNone eq_refl).
  simpl. by destruct (boto3_client X t "s3" k VNone sk).
Qed.

(** ** Keys and URLs *)

(** X10. For a given bucket and domain, different keys get different URLs:
    the key can be read back from the URL. *)
Theorem distinct_keys_distinct_urls
    (bucket_name bucket_domain object_name1 object_name2 : string) :
  object_name1 <> object_name2 ->
  AmazonS3.public_url (VStr bucket_name) (VStr object_name1)
    (VStr bucket_domain) <>
  AmazonS3.public_url (VStr bucket_name) (VStr object_name2)
    (VStr bucket_domain).
Proof.
  intros Hne Heq. apply Hne. rewrite !public_url_str in Heq.
  injection Heq as Heq.
  destruct (decide (bucket_domain = "")); by repeat apply String.app_inj in Heq.
Qed.

Lemma distinct_keys_distinct_urls_witness :
  AmazonS3.public_url (VStr "mybucket") (VStr "a.png") (VStr "") <>
  AmazonS3.public_url (VStr "mybucket") (VStr "b.png") (VStr "").
Proof.
  apply (distinct_keys_distinct_urls "mybucket" "" "a.png" "b.png").
  discriminate.
Defined.

(** ** What a constructor does *)

(** X11. However its arguments are passed, a constructor of either class
    calls [boto3.client] once, for the service ["s3"], with the key id, the
    endpoint and the secret it was given, each in its place.  If that call
    returns a client, the new instance holds the two credentials and that
    client; if it raises, the constructor raises the same error. *)
Theorem construction_makes_one_client X cls t args kwargs k sk e :
  bind_args (init_sig cls) args kwargs = inr [k; sk; e] ->
  let run := construct cls args kwargs X t in
  run.2 = (t ++ [Boto3Client "s3" k e sk])%list /\
  (forall c, boto3_client X t "s3" k e sk = inr c ->
             run.1 = inr (instance cls k sk c)) /\
  (forall x, boto3_client X t "s3" k e sk = inl x -> run.1 = inl x).
Proof.
  intros Hb run. subst run. rewrite (construct_bound _ _ _ _ _ _ _ _ Hb).
  simpl. split; [done|]. split; intros ? ->; done.
Qed.

Lemma construction_makes_one_client_witness :
  let run :=
    construct C_CloudflareR2 []
      [("endpoint_url", VStr "https://acct.r2.cloudflarestorage.com");
       ("aws_secret_access_key", VStr "secret");
       ("aws_access_key_id", VStr "AKIA")] Mock.world [] in
  run.2 =
    [Boto3Client "s3" (VStr "AKIA")
       (VStr "https://acct.r2.cloudflarestorage.com") (VStr "secret")] /\
  run.1 =
    inr (instance C_CloudflareR2 (VStr "AKIA") (VStr "secret") (RawClient 0)).
Proof.
  destruct (construction_makes_one_client Mock.world C_CloudflareR2 [] []
              [("endpoint_url", VStr "https://acct.r2.cloudflarestorage.com");
               ("aws_secret_access_key", VStr "secret");
               ("aws_access_key_id", VStr "AKIA")]
              (VStr "AKIA") (VStr "secret")
              (VStr "https://acct.r2.cloudflarestorage.com") eq_refl)
    as (Htrace & Hok & _).
  split; [exact Htrace|]. apply Hok. reflexivity.
Defined.

